(** * The script loaders of [src/core/scriptLoader.ts]

    A shallow embedding of three of the [IScriptLoader] classes of the AMD
    loader ([BrowserScriptLoader] only drives the DOM) and the properties
    their callers rely on:

    - [OnlyOnceScriptLoader]  the decorator that loads a [scriptSrc] once
      and fans the result out to every caller that asked for it;
    - [WorkerScriptLoader]    [importScripts] inside a try/catch;
    - [NodeScriptLoader]      [nodeRequire] for [node|name], otherwise
      read, wrap, evaluate, with the cached-data protocol of [vm.Script].

    Callbacks are observed through the events a loader appends to a
    trace.  An exception that a callback of a caller throws and no
    loader catches unwinds the whole call and is outside the model;
    where a loader has a [try] block, what it encloses is modelled with
    its outcome ([WorkerScriptLoader.load], the [nodeRequire] call of
    [NodeScriptLoader.load]), and so are the TypeErrors that the
    property accesses and calls of [OnlyOnceScriptLoader] itself raise
    on its plain object. *)

From Stdlib Require Import Ascii String QArith Qround Qabs Qpower Lqa.
From stdpp Require Import gmap strings list.

Local Open Scope string_scope.
Local Open Scope list_scope.

(** ** OnlyOnceScriptLoader *)

Module OnlyOnceScriptLoader.

(** A function handed to [load].  A closure cannot be stored in a first
    order state, so a callback is described by what the loader can see
    of it: [id] names the function, and [body] lists the [load] calls it
    issues on this very loader while it runs (reentrancy), one after the
    other and without a [try] around them. *)
Inductive Handler : Type :=
| Fn (id : nat) (body : list Request)
with Request : Type :=
| Load (scriptSrc : string) (callback errorback : Handler).

Definition handler_id (h : Handler) : nat :=
  match h with Fn id _ => id end.

Definition handler_body (h : Handler) : list Request :=
  match h with Fn _ body => body end.

Definition request_src (r : Request) : string :=
  match r with Load scriptSrc _ _ => scriptSrc end.

(** [interface IScriptCallbacks] *)
Record IScriptCallbacks : Type := {
  callback : Handler;
  errorback : Handler
}.

Definition request_callbacks (r : Request) : IScriptCallbacks :=
  match r with Load _ cb eb => {| callback := cb; errorback := eb |} end.

(** What the prototype chain of [callbackMap] can give for a name, as far
    as the loop of [triggerCallback] tells values apart: nothing
    ([undefined]); a function, with its [length]; or a value whose
    [length] is [undefined] (a number, an object without that property). *)
Inductive Inherited : Type :=
| Nothing
| AFunction (length : nat)
| NoLength.

(** What [this.callbackMap[scriptSrc]] can evaluate to: an array of
    callback pairs, or something inherited. *)
Inductive JsValue : Type :=
| VArray (q : list IScriptCallbacks)
| VInherited (v : Inherited).

(** The built-in objects behind a plain object.  [callbackMap] is made by
    the literal [{}], so a name that is not one of its own properties is
    looked up along its prototype chain: [inherited proto name] is what
    the chain gives for [name], where [proto] is the array that an
    assignment to [__proto__] has put in front of the chain, if any.
    The accessor [__proto__] and the method [hasOwnProperty] of
    [Object.prototype] are the standard ones and are built into [load]
    and [get] below. *)
Record Realm : Type := {
  inherited : option (list IScriptCallbacks) -> string -> Inherited
}.

Section Loader.
Context {Err : Type}.

Inductive Event : Type :=
| EActualLoad (scriptSrc : string)   (* this.actualScriptLoader.load(.., scriptSrc, ..) *)
| ECallback (id : nat)               (* scriptCallbacks[i].callback() *)
| EErrorback (id : nat) (err : Err). (* scriptCallbacks[i].errorback(err) *)

(** The loader object.  [callbackMap] holds the own properties of the
    object of that name, [prototype] the array that an assignment to
    [__proto__] made its prototype ([None]: still [Object.prototype]),
    and [trace] what the loader has done so far.  The wrapped
    [actualScriptLoader] is asynchronous: its [load] keeps the two
    closures [() => this.triggerCallback(scriptSrc)] and
    [err => this.triggerErrorback(scriptSrc, err)] and returns; the
    environment runs one of them when the load completes. *)
Record State : Type := {
  callbackMap : gmap string (list IScriptCallbacks);
  prototype : option (list IScriptCallbacks);
  trace : list Event
}.

(** [constructor(actualScriptLoader)] *)
Definition create : State :=
  {| callbackMap := ∅; prototype := None; trace := [] |}.

Definition set_callbackMap (m : gmap string (list IScriptCallbacks)) (s : State) : State :=
  {| callbackMap := m; prototype := prototype s; trace := trace s |}.

Definition set_prototype (a : list IScriptCallbacks) (s : State) : State :=
  {| callbackMap := callbackMap s; prototype := Some a; trace := trace s |}.

Definition emit (e : Event) (s : State) : State :=
  {| callbackMap := callbackMap s; prototype := prototype s; trace := trace s ++ [e] |}.

(** How a method of the loader ends: it returns, or a TypeError leaves
    it; either way the loader is in some state. *)
Inductive Outcome : Type :=
| Returned (s : State)
| TypeError (s : State).

Definition state_of (o : Outcome) : State :=
  match o with
  | Returned s => s
  | TypeError s => s
  end.

Definition and_then (o : Outcome) (k : State -> Outcome) : Outcome :=
  match o with
  | Returned s => k s
  | TypeError s => TypeError s
  end.

(** [public load(moduleManager, scriptSrc, callback, errorback)].
    [this.callbackMap.hasOwnProperty] is the array stored under that
    name when there is one, and calling it throws; otherwise it is the
    method of [Object.prototype] and tells whether [scriptSrc] is an own
    property.  The assignment [this.callbackMap[scriptSrc] = [..]]
    creates an own property, except for [__proto__], where it calls the
    setter and replaces the prototype. *)
Definition load (scriptSrc : string) (callback errorback : Handler) (s : State) : Outcome :=
  let scriptCallbacks := {| callback := callback; errorback := errorback |} in
  match callbackMap s !! "hasOwnProperty" with
  | Some _ => TypeError s
  | None =>
      match callbackMap s !! scriptSrc with
      | Some queued =>
          Returned
            (set_callbackMap (<[scriptSrc := queued ++ [scriptCallbacks]]> (callbackMap s)) s)
      | None =>
          Returned
            (emit (EActualLoad scriptSrc)
               (if bool_decide (scriptSrc = "__proto__")
                then set_prototype [scriptCallbacks] s
                else set_callbackMap (<[scriptSrc := [scriptCallbacks]]> (callbackMap s)) s))
      end
  end.

Definition perform (s : State) (r : Request) : Outcome :=
  match r with Load scriptSrc cb eb => load scriptSrc cb eb s end.

(** The [load] calls of a handler, until one throws. *)
Fixpoint perform_all (rs : list Request) (s : State) : Outcome :=
  match rs with
  | [] => Returned s
  | r :: rs => and_then (perform s r) (perform_all rs)
  end.

(** Calling a handler: the call is recorded, then its body runs. *)
Definition invoke (e : nat -> Event) (h : Handler) (s : State) : Outcome :=
  perform_all (handler_body h) (emit (e (handler_id h)) s).

(** The loop [for (let i = 0; i < scriptCallbacks.length; i++)] over an
    array of pairs.  The array is no longer reachable from the loader
    when the loop runs, so no [push] of a later [load] changes it. *)
Fixpoint for_each (e : nat -> Event) (pick : IScriptCallbacks -> Handler)
    (scriptCallbacks : list IScriptCallbacks) (s : State) : Outcome :=
  match scriptCallbacks with
  | [] => Returned s
  | sc :: rest => and_then (invoke e (pick sc) s) (for_each e pick rest)
  end.

(** [this.callbackMap[name]]: an own property, else the prototype for
    [__proto__], else what the prototype chain gives. *)
Definition get (realm : Realm) (s : State) (name : string) : JsValue :=
  match callbackMap s !! name with
  | Some q => VArray q
  | None =>
      if bool_decide (name = "__proto__") then
        match prototype s with
        | Some a => VArray a
        | None => VInherited NoLength
        end
      else VInherited (inherited realm (prototype s) name)
  end.

(** The body of [triggerCallback] and [triggerErrorback] after the
    [delete]: [undefined.length] throws; an array is looped over; a
    function of [length] 0 and a value without [length] end the loop at
    once; on a function of greater [length] the first element is
    [undefined] and the call on it throws. *)
Definition notify_value (e : nat -> Event) (pick : IScriptCallbacks -> Handler)
    (scriptCallbacks : JsValue) (s : State) : Outcome :=
  match scriptCallbacks with
  | VArray q => for_each e pick q s
  | VInherited Nothing => TypeError s
  | VInherited (AFunction 0) => Returned s
  | VInherited (AFunction (S _)) => TypeError s
  | VInherited NoLength => Returned s
  end.

(** [private triggerCallback(scriptSrc)] *)
Definition triggerCallback (realm : Realm) (scriptSrc : string) (s : State) : Outcome :=
  let scriptCallbacks := get realm s scriptSrc in
  let s := set_callbackMap (delete scriptSrc (callbackMap s)) s in
  notify_value ECallback callback scriptCallbacks s.

(** [private triggerErrorback(scriptSrc, err)] *)
Definition triggerErrorback (realm : Realm) (scriptSrc : string) (err : Err) (s : State)
  : Outcome :=
  let scriptCallbacks := get realm s scriptSrc in
  let s := set_callbackMap (delete scriptSrc (callbackMap s)) s in
  notify_value (fun id => EErrorback id err) errorback scriptCallbacks s.

(** How the underlying load of [scriptSrc] ends. *)
Inductive Completion : Type :=
| Loaded
| Failed (err : Err).

Definition complete (realm : Realm) (scriptSrc : string) (c : Completion) (s : State)
  : Outcome :=
  match c with
  | Loaded => triggerCallback realm scriptSrc s
  | Failed err => triggerErrorback realm scriptSrc err s
  end.

(** *** Reading a trace *)

Definition is_actual_load (scriptSrc : string) (e : Event) : bool :=
  match e with
  | EActualLoad src => bool_decide (src = scriptSrc)
  | _ => false
  end.

Definition is_invocation (e : Event) : bool :=
  match e with
  | EActualLoad _ => false
  | _ => true
  end.

(** The underlying loads of [scriptSrc] started in a trace. *)
Definition actual_loads (scriptSrc : string) (t : list Event) : nat :=
  length (List.filter (is_actual_load scriptSrc) t).

(** The callback and errorback calls of a trace, in order. *)
Definition invocations (t : list Event) : list Event :=
  List.filter is_invocation t.

(** The handler a completion picks from each queued pair, and the
    event its call leaves. *)
Definition chosen (c : Completion) (sc : IScriptCallbacks) : Handler :=
  match c with
  | Loaded => callback sc
  | Failed _ => errorback sc
  end.

Definition notification (c : Completion) (sc : IScriptCallbacks) : Event :=
  match c with
  | Loaded => ECallback (handler_id (callback sc))
  | Failed err => EErrorback (handler_id (errorback sc)) err
  end.

(** The callback pairs that the [load] calls of [rs] register for
    [scriptSrc], in order. *)
Definition requested (scriptSrc : string) (rs : list Request) : list IScriptCallbacks :=
  request_callbacks <$> List.filter (fun r => bool_decide (request_src r = scriptSrc)) rs.

(** The [load] calls issued by the handlers a completion calls. *)
Definition reentrant (c : Completion) (queued : list IScriptCallbacks) : list Request :=
  concat ((fun sc => handler_body (chosen c sc)) <$> queued).

(** An entry of the map after more pairs were registered for its key. *)
Definition extend (entry : option (list IScriptCallbacks)) (more : list IScriptCallbacks)
  : option (list IScriptCallbacks) :=
  match entry, more with
  | None, [] => None
  | None, _ => Some more
  | Some queued, _ => Some (queued ++ more)
  end.


Definition call_event (c : Completion) (id : nat) : Event :=
  match c with
  | Loaded => ECallback id
  | Failed err => EErrorback id err
  end.

(** The loop of [triggerCallback] and [triggerErrorback]. *)
Definition notify (c : Completion) (queued : list IScriptCallbacks) (s : State) : Outcome :=
  for_each (call_event c) (chosen c) queued s.

(** [n] calls [load(scriptSrc, ..)] in a row, one per callback pair. *)
Fixpoint load_all (scriptSrc : string) (cbs : list IScriptCallbacks) (s : State) : Outcome :=
  match cbs with
  | [] => Returned s
  | sc :: cbs =>
      and_then (load scriptSrc (callback sc) (errorback sc) s) (load_all scriptSrc cbs)
  end.

(** *** The locators for which the object is a map *)

(** No [load] of the requests is for [hasOwnProperty]: none of them
    stores an array over the method that [load] calls. *)
Definition quiet (rs : list Request) : Prop :=
  Forall (fun r => request_src r <> "hasOwnProperty") rs.


End Loader.

Arguments Event : clear implicits.
Arguments State : clear implicits.
Arguments Outcome : clear implicits.
Arguments Completion : clear implicits.

End OnlyOnceScriptLoader.

(** ** WorkerScriptLoader *)

Module WorkerScriptLoader.
Section Worker.
Context {Err W : Type}.

(** How a call made by the loader ends: it returns or it throws, in both
    cases leaving the worker's global scope [W] in some state. *)
Inductive Outcome : Type :=
| Returned (w : W)
| Thrown (err : Err) (w : W).

Inductive Event : Type :=
| ECallback                 (* callback() *)
| EErrorback (err : Err).   (* errorback(e) *)

(** A statement of [load]: from the global scope and the calls made so
    far to either a normal end or an exception in flight. *)
Inductive Result : Type :=
| Done (w : W) (calls : list Event)
| Raised (err : Err) (w : W) (calls : list Event).

Definition Stmt : Type := W -> list Event -> Result.

Definition seq (a b : Stmt) : Stmt :=
  fun w calls =>
    match a w calls with
    | Done w' calls' => b w' calls'
    | Raised err w' calls' => Raised err w' calls'
    end.

Definition try_catch (body : Stmt) (handler : Err -> Stmt) : Stmt :=
  fun w calls =>
    match body w calls with
    | Done w' calls' => Done w' calls'
    | Raised err w' calls' => handler err w' calls'
    end.

(** A call that is not a callback of the caller. *)
Definition exec (f : W -> Outcome) : Stmt :=
  fun w calls =>
    match f w with
    | Returned w' => Done w' calls
    | Thrown err w' => Raised err w' calls
    end.

(** A call of one of the caller's two functions: the call is recorded
    when it is made, whatever the function then does. *)
Definition call (e : Event) (f : W -> Outcome) : Stmt :=
  fun w calls => exec f w (calls ++ [e]).

(** [public load(moduleManager, scriptSrc, callback, errorback)]:
    [try { importScripts(scriptSrc); callback(); } catch (e) { errorback(e); }] *)
Definition load (importScripts : string -> W -> Outcome) (scriptSrc : string)
    (callback : W -> Outcome) (errorback : Err -> W -> Outcome) : Stmt :=
  try_catch
    (seq (exec (importScripts scriptSrc)) (call ECallback callback))
    (fun e => call (EErrorback e) (errorback e)).

Definition calls_of (r : Result) : list Event :=
  match r with
  | Done _ calls => calls
  | Raised _ _ calls => calls
  end.

Definition returns (f : W -> Outcome) : Prop :=
  forall w, exists w', f w = Returned w'.

End Worker.

Arguments Outcome : clear implicits.
Arguments Event : clear implicits.
Arguments Result : clear implicits.
Arguments Stmt : clear implicits.

End WorkerScriptLoader.

(** ** Numbers

    A JavaScript number is a double.  The finite ones are rationals, and
    an arithmetic operation gives the double nearest to the exact
    result, the one with the even last digit of two.  Sums beyond the
    largest double, which the machine gives as [Infinity], are outside
    the model; zero has no sign. *)

Module Numbers.

Definition pow2 (e : Z) : Q := 2 ^ e.

(** A double, the largest one aside: an integer of at most 53 binary
    digits times a power of two that is not below the smallest. *)
Definition representable (y : Q) : Prop :=
  exists m e : Z, (Z.abs m < 2 ^ 53)%Z /\ (-1074 <= e)%Z /\ (y == inject_Z m * pow2 e)%Q.

(** The integer [k] with [2^k <= |x| < 2^(k+1)], for [x] other than 0. *)
Definition log2_floor (x : Q) : Z :=
  let k := (Z.log2 (Z.abs (Qnum x)) - Z.log2 (Zpos (Qden x)))%Z in
  if Qle_bool (pow2 k) (Qabs x) then k else (k - 1)%Z.

(** The exponent of the last binary digit that a double near [x] keeps:
    53 digits, and never below the exponent of the subnormal numbers. *)
Definition exponent (x : Q) : Z :=
  if Qeq_bool x 0 then (-1074)%Z else Z.max (log2_floor x - 52) (-1074).

(** The nearest integer, the even one of two. *)
Definition round_half_even (t : Q) : Z :=
  let f := Qfloor t in
  match (t - inject_Z f ?= 1 # 2)%Q with
  | Lt => f
  | Gt => (f + 1)%Z
  | Eq => if Z.even f then f else (f + 1)%Z
  end.

(** [x] with its digits after the last one kept rounded away by [rnd]. *)
Definition on_grid (rnd : Q -> Z) (x : Q) : Q :=
  (inject_Z (rnd (x / pow2 (exponent x))) * pow2 (exponent x))%Q.

(** The double nearest to [x]. *)
Definition nearest_double (x : Q) : Q := Qred (on_grid round_half_even x).

Definition is_double (x : Q) : Prop := (nearest_double x == x)%Q.

(** [x * y], [x + y] and [Math.ceil(x)] on doubles. *)
Definition multiply (x y : Q) : Q := nearest_double (x * y).

Definition add (x y : Q) : Q := nearest_double (x + y).

Definition Math_ceil (x : Q) : Q := inject_Z (Qceiling x).

End Numbers.

(** ** NodeScriptLoader *)

Module NodeScriptLoader.

(** *** Strings

    Locators and paths are [string]s, read as the UTF-8 encoding of the
    JavaScript string: the characters that the loader looks for are
    ASCII, and an ASCII byte stands for itself wherever it occurs.  The
    text of a script is kept as the list of its UTF-16 code units, as
    [charCodeAt] sees it, so that the byte order mark U+FEFF can stand
    in it. *)

Definition units (s : string) : list N :=
  Ascii.N_of_ascii <$> String.list_ascii_of_string s.

(** [s.split(sep)] for a one-character separator. *)
Fixpoint split (sep : ascii) (s : string) : list string :=
  match s with
  | EmptyString => [EmptyString]
  | String c rest =>
      if Ascii.eqb c sep then EmptyString :: split sep rest
      else match split sep rest with
           | piece :: pieces => String c piece :: pieces
           | [] => [String c EmptyString]
           end
  end.

(** [s.replace(/\.js$/, '')]: the first position, from the left, at which
    [.js] is followed by the end of the input is cut off. *)
Fixpoint replace_js_at_end (s : string) : string :=
  if String.eqb s ".js" then EmptyString
  else match s with
       | EmptyString => EmptyString
       | String c rest => String c (replace_js_at_end rest)
       end.

(** [s.replace(/\\/g, '/')] *)
Fixpoint replace_backslashes (s : string) : string :=
  match s with
  | EmptyString => EmptyString
  | String c rest =>
      String (if Ascii.eqb c "\" then "/"%char else c) (replace_backslashes rest)
  end.

Definition is_letter (c : ascii) : bool :=
  let n := Ascii.nat_of_ascii c in
  (((65 <=? n)%nat && (n <=? 90)%nat) || ((97 <=? n)%nat && (n <=? 122)%nat))%bool.

Definition toUpperCase (c : ascii) : ascii :=
  let n := Ascii.nat_of_ascii c in
  if ((97 <=? n)%nat && (n <=? 122)%nat)%bool then Ascii.ascii_of_nat (n - 32) else c.

(** The line terminators, which the dot of a regular expression does
    not match: LF, CR, the line separator U+2028 and the paragraph
    separator U+2029, the last two of three bytes each. *)
Definition line_terminators : list string :=
  [String "010" EmptyString;
   String "013" EmptyString;
   String "226" (String "128" (String "168" EmptyString));
   String "226" (String "128" (String "169" EmptyString))].

Definition at_line_terminator (s : string) : bool :=
  existsb (fun terminator => String.prefix terminator s) line_terminators.

(** What the group of the dot and the star takes: everything up to the
    first line terminator. *)
Fixpoint dot_star (s : string) : string :=
  match s with
  | EmptyString => EmptyString
  | String c rest => if at_line_terminator s then EmptyString else String c (dot_star rest)
  end.

(** [s.match] against a letter of either case, a colon and the group
    [.*], anchored at the start: the two groups, when it matches. *)
Definition driveLetterMatch (s : string) : option (ascii * string) :=
  match s with
  | String c (String ":" rest) => if is_letter c then Some (c, dot_star rest) else None
  | _ => None
  end.

(** The name of a file without a closing [.js], as the naming scheme of
    the cache describes it: the last three characters are dropped when
    they are [.js]. *)
Definition without_js_extension (name : string) : string :=
  let chars := String.list_ascii_of_string name in
  let n := (length chars - 3)%nat in
  if decide (drop n chars = String.list_ascii_of_string ".js")
  then String.string_of_list_ascii (take n chars)
  else name.

(** *** The host *)

(** The two events of [loaderEvents.ts] that this loader records. *)
Inductive LoaderEventType : Type :=
| NodeBeginEvaluatingScript
| NodeEndEvaluatingScript.

Section Node.
Context {Err Buffer Value : Type}.

(** [interface INodeFS]; each function gives what the file system hands
    to the callback of the call: [err] or the text for the UTF-8 read,
    [data] ([undefined] when the file cannot be read) for the raw read,
    [err] if any for [writeFile] and [unlink]. *)
Record INodeFS : Type := {
  readFile_utf8 : string -> Err + list N;
  readFile : string -> option Buffer;
  writeFile : string -> Buffer -> option Err;
  unlink : string -> option Err
}.

(** [interface INodeVMScriptOptions] *)
Record INodeVMScriptOptions : Type := {
  filename : string;
  produceCachedData : option bool;
  cachedData : option Buffer
}.

(** [interface INodeVMScript] *)
Record INodeVMScript : Type := {
  script_cachedData : Buffer;
  cachedDataProduced : bool;
  cachedDataRejected : bool
}.

(** [interface INodeVM]: [new Script(contents, options)] *)
Record INodeVM : Type := {
  Script : list N -> INodeVMScriptOptions -> INodeVMScript
}.

(** [interface INodePath] *)
Record INodePath : Type := {
  dirname : string -> string;
  normalize : string -> string;
  basename : string -> string;
  join : list string -> string
}.

(** [interface INodeCrypto]:
    [createHash(type).update(str, 'utf8').digest('hex')] *)
Record INodeCrypto : Type := {
  createHash : string -> string -> string
}.

(** What the loader finds around it: [nodeRequire] (it throws or gives
    the exports), the four modules bound by [_init], the two globals
    [isElectronRenderer] and [Utilities.fileUriToFilePath], and the value
    of [Math.random()]. *)
Record Host : Type := {
  nodeRequire : string -> Err + Value;
  _fs : INodeFS;
  _vm : INodeVM;
  _path : INodePath;
  _crypto : INodeCrypto;
  isElectronRenderer : bool;
  fileUriToFilePath : string -> string;
  Math_random : Q
}.

(** [moduleManager.getConfig().getOptionsLiteral()], as far as [load]
    reads it; [onNodeCachedDataError] is seen through its calls. *)
Record Options : Type := {
  nodeInstrumenter : option (list N -> string -> list N);
  nodeCachedDataDir : option string;
  nodeCachedDataWriteDelay : Q
}.

(** What [_runSoon] defers. *)
Inductive Task : Type :=
| TUnlink (path : string)                   (* this._fs.unlink(cachedDataPath, ..) *)
| TWriteFile (path : string) (data : Buffer). (* this._fs.writeFile(cachedDataPath, script.cachedData, ..) *)

Inductive Event : Type :=
| ECallback                                    (* callback() *)
| EErrorback (err : Err)                        (* errorback(err) *)
| EEnqueueDefineAnonymousModule (dependencies : list string) (exports : Value)
                                               (* enqueueDefineAnonymousModule([], () => moduleExports) *)
| EReadFile (filename : string) (encoding : option string)
| ERecord (type : LoaderEventType) (scriptSrc : string)
| ERunScript (contents : list N) (options : INodeVMScriptOptions) (vmScriptSrc dir : string)
                                               (* new Script; runInThisContext; r.call(..) *)
| EOnNodeCachedDataError (errorCode path : string) (detail : option Err)
| ESetTimeout (task : Task) (timeout : Q)
| EUnlink (path : string)
| EWriteFile (path : string) (data : Buffer).

(** *** The loader *)

Definition _BOM : N := 0xFEFF.

Definition prefix : list N := units "(function (require, define, __filename, __dirname) { ".

Definition suffix : list N := 10%N :: units "});".

(** Lines 235-243 of [load]: the text that is compiled. *)
Definition contents (data : list N) : list N :=
  match data with
  | c :: rest => if (c =? _BOM)%N then prefix ++ rest ++ suffix else prefix ++ data ++ suffix
  | [] => prefix ++ data ++ suffix
  end.

(** Lines 224-233 of [load]. *)
Definition vmScriptSrc_of (host : Host) (normalizedScriptSrc : string) : string :=
  if isElectronRenderer host then
    let vmScriptSrc :=
      match driveLetterMatch normalizedScriptSrc with
      | Some (letter, rest) => String (toUpperCase letter) (String ":" rest)
      | None => normalizedScriptSrc
      end in
    "file:///" +:+ replace_backslashes vmScriptSrc
  else normalizedScriptSrc.

(** [private _getCachedDataPath(baseDir, filename)] *)
Definition _getCachedDataPath (host : Host) (baseDir filename : string) : string :=
  let hash := createHash (_crypto host) "md5" filename in
  let basename := replace_js_at_end (basename (_path host) filename) in
  join (_path host) [baseDir; hash +:+ "-" +:+ basename +:+ ".code"].

(** [minTimeout + Math.ceil(Math.random() * minTimeout)] in exact
    arithmetic. *)
Definition _runSoon_timeout (random minTimeout : Q) : Q :=
  minTimeout + inject_Z (Qceiling (random * minTimeout)).

(** The same as the machine computes it on two doubles, the product
    and the sum each rounded to a double. *)
Definition _runSoon_timeout_double (random minTimeout : Q) : Q :=
  Numbers.add minTimeout (Numbers.Math_ceil (Numbers.multiply random minTimeout)).

(** [private static _runSoon(callback, minTimeout)]: the delay handed to
    [setTimeout], and the call. *)
Definition _runSoon (host : Host) (task : Task) (minTimeout : Q) : Event :=
  ESetTimeout task (_runSoon_timeout_double (Math_random host) minTimeout).

(** [private _loadAndEvalScript(scriptSrc, vmScriptSrc, contents, options, recorder)] *)
Definition _loadAndEvalScript (host : Host) (scriptSrc vmScriptSrc : string)
    (contents : list N) (options : INodeVMScriptOptions) : list Event * INodeVMScript :=
  ([ERecord NodeBeginEvaluatingScript scriptSrc;
    ERunScript contents options vmScriptSrc (dirname (_path host) scriptSrc);
    ERecord NodeEndEvaluatingScript scriptSrc],
   Script (_vm host) contents options).

(** The deferred function runs when its timer fires; a failure goes to
    [onNodeCachedDataError]. *)
Definition onTimeout (host : Host) (task : Task) : list Event :=
  match task with
  | TUnlink cachedDataPath =>
      EUnlink cachedDataPath ::
      match unlink (_fs host) cachedDataPath with
      | Some err => [EOnNodeCachedDataError "unlink" cachedDataPath (Some err)]
      | None => []
      end
  | TWriteFile cachedDataPath data =>
      EWriteFile cachedDataPath data ::
      match writeFile (_fs host) cachedDataPath data with
      | Some err => [EOnNodeCachedDataError "writeFile" cachedDataPath (Some err)]
      | None => []
      end
  end.

(** Lines 268-299: the cached code aftermath. *)
Definition aftermath (host : Host) (opts : Options) (cachedDataPath : string)
    (script : INodeVMScript) : list Event :=
  if cachedDataRejected script then
    [EOnNodeCachedDataError "cachedDataRejected" cachedDataPath None;
     _runSoon host (TUnlink cachedDataPath) (nodeCachedDataWriteDelay opts)]
    ++ onTimeout host (TUnlink cachedDataPath)
  else if cachedDataProduced script then
    [_runSoon host (TWriteFile cachedDataPath (script_cachedData script))
       (nodeCachedDataWriteDelay opts)]
    ++ onTimeout host (TWriteFile cachedDataPath (script_cachedData script))
  else [].

(** Lines 256-300: the callback of the read of the cache file. *)
Definition onCachedDataRead (host : Host) (opts : Options)
    (scriptSrc vmScriptSrc : string) (contents : list N) (cachedDataPath : string)
    (data : option Buffer) : list Event :=
  let scriptOptions :=
    {| filename := vmScriptSrc;
       produceCachedData := Some (match data with None => true | Some _ => false end);
       cachedData := data |} in
  let '(evaluation, script) :=
    _loadAndEvalScript host scriptSrc vmScriptSrc contents scriptOptions in
  evaluation ++ [ECallback] ++ aftermath host opts cachedDataPath script.

(** [!opts.nodeCachedDataDir]: no directory, or the empty string. *)
Definition configured_dir (opts : Options) : option string :=
  match nodeCachedDataDir opts with
  | Some EmptyString => None
  | d => d
  end.

(** Lines 218-302: the callback of the read of the script. *)
Definition onSourceRead (host : Host) (opts : Options) (scriptSrc : string)
    (result : Err + list N) : list Event :=
  match result with
  | inl err => [EErrorback err]
  | inr data =>
      let normalizedScriptSrc := normalize (_path host) scriptSrc in
      let vmScriptSrc := vmScriptSrc_of host normalizedScriptSrc in
      let contents := contents data in
      let contents :=
        match nodeInstrumenter opts with
        | Some instrument => instrument contents normalizedScriptSrc
        | None => contents
        end in
      match configured_dir opts with
      | None =>
          fst (_loadAndEvalScript host scriptSrc vmScriptSrc contents
                 {| filename := vmScriptSrc; produceCachedData := None; cachedData := None |})
          ++ [ECallback]
      | Some dir =>
          let cachedDataPath := _getCachedDataPath host dir scriptSrc in
          EReadFile cachedDataPath None ::
          onCachedDataRead host opts scriptSrc vmScriptSrc contents cachedDataPath
            (readFile (_fs host) cachedDataPath)
      end
  end.

(** [pieces[1]] of [scriptSrc.split('|')] *)
Definition native_name (scriptSrc : string) : string :=
  nth 1 (split "|" scriptSrc) EmptyString.

(** [public load(moduleManager, scriptSrc, callback, errorback)]: all that
    this call and the callbacks it leaves behind do, in the order in
    which it happens. *)
Definition load (host : Host) (opts : Options) (scriptSrc : string) : list Event :=
  if String.prefix "node|" scriptSrc then
    match nodeRequire host (native_name scriptSrc) with
    | inl err => [EErrorback err]
    | inr moduleExports => [EEnqueueDefineAnonymousModule [] moduleExports; ECallback]
    end
  else
    let scriptSrc := fileUriToFilePath host scriptSrc in
    EReadFile scriptSrc (Some "utf8") ::
    onSourceRead host opts scriptSrc (readFile_utf8 (_fs host) scriptSrc).

(** *** Reading a trace *)

Definition is_caller_event (e : Event) : bool :=
  match e with
  | ECallback | EErrorback _ => true
  | _ => false
  end.

(** Writing the cache back or evicting it, and the reports about it. *)
Definition is_cache_action (e : Event) : bool :=
  match e with
  | EOnNodeCachedDataError _ _ _ | ESetTimeout _ _ | EUnlink _ | EWriteFile _ _ => true
  | _ => false
  end.

Definition is_evaluation (e : Event) : bool :=
  match e with
  | ERunScript _ _ _ _ => true
  | _ => false
  end.

(** The tasks handed to [_runSoon] in a trace. *)
Definition scheduled (t : list Event) : list Task :=
  omap (fun e => match e with ESetTimeout task _ => Some task | _ => None end) t.

(** The file operations of a trace that change the cache. *)
Definition performed (t : list Event) : list Task :=
  omap (fun e => match e with
                 | EUnlink p => Some (TUnlink p)
                 | EWriteFile p d => Some (TWriteFile p d)
                 | _ => None
                 end) t.

(** The calls of [onNodeCachedDataError] in a trace. *)
Definition reports (t : list Event) : list (string * string * option Err) :=
  omap (fun e => match e with
                 | EOnNodeCachedDataError code p detail => Some (code, p, detail)
                 | _ => None
                 end) t.

End Node.

Arguments INodeFS : clear implicits.
Arguments INodeVMScriptOptions : clear implicits.
Arguments INodeVMScript : clear implicits.
Arguments INodeVM : clear implicits.
Arguments Host : clear implicits.
Arguments Task : clear implicits.
Arguments Event : clear implicits.

End NodeScriptLoader.

(** ** Sample inputs *)

Module Samples.

(** Two callers of the decorator; the success callback of the second
    asks for [a.js] again while it runs. *)
Definition first_caller : OnlyOnceScriptLoader.IScriptCallbacks :=
  {| OnlyOnceScriptLoader.callback := OnlyOnceScriptLoader.Fn 1 [];
     OnlyOnceScriptLoader.errorback := OnlyOnceScriptLoader.Fn 2 [] |}.

Definition late_caller : OnlyOnceScriptLoader.IScriptCallbacks :=
  {| OnlyOnceScriptLoader.callback := OnlyOnceScriptLoader.Fn 5 [];
     OnlyOnceScriptLoader.errorback := OnlyOnceScriptLoader.Fn 6 [] |}.

Definition second_caller : OnlyOnceScriptLoader.IScriptCallbacks :=
  {| OnlyOnceScriptLoader.callback :=
       OnlyOnceScriptLoader.Fn 3
         [OnlyOnceScriptLoader.Load "a.js"
            (OnlyOnceScriptLoader.callback late_caller)
            (OnlyOnceScriptLoader.errorback late_caller)];
     OnlyOnceScriptLoader.errorback := OnlyOnceScriptLoader.Fn 4 [] |}.

Definition fresh_loader : OnlyOnceScriptLoader.State string :=
  OnlyOnceScriptLoader.create.

Definition waiting (cbs : list OnlyOnceScriptLoader.IScriptCallbacks)
  : OnlyOnceScriptLoader.State string :=
  OnlyOnceScriptLoader.state_of (OnlyOnceScriptLoader.load_all "a.js" cbs fresh_loader).

(** The function-valued properties of [Object.prototype] and of
    [Array.prototype], with the [length] of each function. *)
Definition object_prototype_functions : list (string * nat) :=
  [("constructor", 1); ("hasOwnProperty", 1); ("isPrototypeOf", 1);
   ("propertyIsEnumerable", 1); ("toLocaleString", 0); ("toString", 0); ("valueOf", 0);
   ("__defineGetter__", 2); ("__defineSetter__", 2);
   ("__lookupGetter__", 1); ("__lookupSetter__", 1)].

Definition array_prototype_functions : list (string * nat) :=
  [("at", 1); ("concat", 1); ("constructor", 1); ("copyWithin", 2); ("entries", 0);
   ("every", 1); ("fill", 1); ("filter", 1); ("find", 1); ("findIndex", 1);
   ("findLast", 1); ("findLastIndex", 1); ("flat", 0); ("flatMap", 1); ("forEach", 1);
   ("includes", 1); ("indexOf", 1); ("join", 1); ("keys", 0); ("lastIndexOf", 1);
   ("map", 1); ("pop", 0); ("push", 1); ("reduce", 1); ("reduceRight", 1);
   ("reverse", 0); ("shift", 0); ("slice", 2); ("some", 1); ("sort", 1); ("splice", 2);
   ("toLocaleString", 0); ("toReversed", 0); ("toSorted", 1); ("toSpliced", 2);
   ("toString", 0); ("unshift", 1); ("values", 0); ("with", 2)].

Fixpoint function_length (table : list (string * nat)) (name : string) : option nat :=
  match table with
  | [] => None
  | (n, len) :: table => if String.eqb n name then Some len else function_length table name
  end.

Definition digit (c : ascii) : option nat :=
  let n := Ascii.nat_of_ascii c in
  if ((48 <=? n)%nat && (n <=? 57)%nat)%bool then Some (n - 48) else None.

Fixpoint digits (acc : nat) (s : string) : option nat :=
  match s with
  | EmptyString => Some acc
  | String c rest =>
      match digit c with
      | Some d => digits (10 * acc + d) rest
      | None => None
      end
  end.

(** The array index that a property name writes, if it is one: a decimal
    numeral without a leading zero. *)
Definition array_index (name : string) : option nat :=
  match name with
  | EmptyString => None
  | String "0" EmptyString => Some 0
  | String "0" _ => None
  | _ => digits 0 name
  end.

Definition from_table (table : list (string * nat)) (name : string)
    (otherwise : OnlyOnceScriptLoader.Inherited) : OnlyOnceScriptLoader.Inherited :=
  match function_length table name with
  | Some len => OnlyOnceScriptLoader.AFunction len
  | None => otherwise
  end.

(** The prototype chain of a plain object in a standard realm:
    [Object.prototype], behind the elements, the [length] and
    [Array.prototype] of an array when one was made the prototype. *)
Definition standard_realm : OnlyOnceScriptLoader.Realm :=
  {| OnlyOnceScriptLoader.inherited := fun proto name =>
       let behind :=
         from_table object_prototype_functions name OnlyOnceScriptLoader.Nothing in
       match proto with
       | None => behind
       | Some a =>
           if String.eqb name "length" then OnlyOnceScriptLoader.NoLength
           else match array_index name with
                | Some i =>
                    if (i <? length a)%nat then OnlyOnceScriptLoader.NoLength
                    else from_table array_prototype_functions name behind
                | None => from_table array_prototype_functions name behind
                end
       end |}.





(** A worker in which [importScripts] succeeds and the success callback
    throws. *)
Definition importScripts_ok (scriptSrc : string) (w : unit)
  : WorkerScriptLoader.Outcome string unit :=
  WorkerScriptLoader.Returned w.

Definition throwing_callback (w : unit) : WorkerScriptLoader.Outcome string unit :=
  WorkerScriptLoader.Thrown "boom" w.

Definition quiet_errorback (err : string) (w : unit)
  : WorkerScriptLoader.Outcome string unit :=
  WorkerScriptLoader.Returned w.

(** A host with a cold cache whose file system refuses to write. *)
Definition cold_host : NodeScriptLoader.Host string (list N) string :=
  {| NodeScriptLoader.nodeRequire :=
       fun name => if String.eqb name "fs" then inr "exports of fs"
                   else inl "Cannot find module";
     NodeScriptLoader._fs :=
       {| NodeScriptLoader.readFile_utf8 := fun _ => inr (NodeScriptLoader.units "console.log(1)");
          NodeScriptLoader.readFile := fun _ => None;
          NodeScriptLoader.writeFile := fun _ _ => Some "EACCES";
          NodeScriptLoader.unlink := fun _ => None |};
     NodeScriptLoader._vm :=
       {| NodeScriptLoader.Script := fun _ options =>
            {| NodeScriptLoader.script_cachedData := [1%N; 2%N; 3%N];
               NodeScriptLoader.cachedDataProduced :=
                 match NodeScriptLoader.produceCachedData options with
                 | Some true => true
                 | _ => false
                 end;
               NodeScriptLoader.cachedDataRejected := false |} |};
     NodeScriptLoader._path :=
       {| NodeScriptLoader.dirname := fun _ => "/src";
          NodeScriptLoader.normalize := fun p => p;
          NodeScriptLoader.basename := fun _ => "main.js";
          NodeScriptLoader.join := fun parts => String.concat "/" parts |};
     NodeScriptLoader._crypto := {| NodeScriptLoader.createHash := fun _ _ => "0cc175b9" |};
     NodeScriptLoader.isElectronRenderer := false;
     NodeScriptLoader.fileUriToFilePath := fun uri => uri;
     NodeScriptLoader.Math_random := 19 # 20 |}.

(** The same host with a stale cache file that cannot be deleted. *)
Definition stale_host : NodeScriptLoader.Host string (list N) string :=
  {| NodeScriptLoader.nodeRequire := NodeScriptLoader.nodeRequire cold_host;
     NodeScriptLoader._fs :=
       {| NodeScriptLoader.readFile_utf8 := fun _ => inr (NodeScriptLoader.units "console.log(1)");
          NodeScriptLoader.readFile := fun _ => Some [9%N];
          NodeScriptLoader.writeFile := fun _ _ => None;
          NodeScriptLoader.unlink := fun _ => Some "EBUSY" |};
     NodeScriptLoader._vm :=
       {| NodeScriptLoader.Script := fun _ options =>
            {| NodeScriptLoader.script_cachedData := [];
               NodeScriptLoader.cachedDataProduced := false;
               NodeScriptLoader.cachedDataRejected :=
                 match NodeScriptLoader.cachedData options with
                 | Some _ => true
                 | None => false
                 end |} |};
     NodeScriptLoader._path := NodeScriptLoader._path cold_host;
     NodeScriptLoader._crypto := NodeScriptLoader._crypto cold_host;
     NodeScriptLoader.isElectronRenderer := true;
     NodeScriptLoader.fileUriToFilePath := fun uri => uri;
     NodeScriptLoader.Math_random := 1 # 4 |}.

Definition cached_options : NodeScriptLoader.Options :=
  {| NodeScriptLoader.nodeInstrumenter := None;
     NodeScriptLoader.nodeCachedDataDir := Some "/cache";
     NodeScriptLoader.nodeCachedDataWriteDelay := 10 |}.

End Samples.

(** ** Sessions of the OnlyOnceScriptLoader *)

Module OnlyOnceSessions.
Import OnlyOnceScriptLoader.

Section Sessions.
Context {Err : Type}.

(** What happens to a loader over time: a caller calls [load], or the
    wrapped loader runs one of the two closures it was given for a
    [scriptSrc]. *)
Inductive Op : Type :=
| OpLoad (scriptSrc : string) (callback errorback : Handler)
| OpComplete (scriptSrc : string) (c : Completion Err).

Definition returned (o : Outcome Err) : option (State Err) :=
  match o with
  | Returned s => Some s
  | TypeError _ => None
  end.

Definition step (realm : Realm) (s : State Err) (op : Op) : option (State Err) :=
  match op with
  | OpLoad scriptSrc cb eb => returned (load scriptSrc cb eb s)
  | OpComplete scriptSrc c => returned (complete realm scriptSrc c s)
  end.

(** A session; [None] when one of its steps throws. *)
Fixpoint run (realm : Realm) (ops : list Op) (s : State Err) : option (State Err) :=
  match ops with
  | [] => Some s
  | op :: ops =>
      match step realm s op with
      | Some s' => run realm ops s'
      | None => None
      end
  end.



Definition is_load_of (scriptSrc : string) (op : Op) : bool :=
  match op with
  | OpLoad src _ _ => bool_decide (src = scriptSrc)
  | OpComplete _ _ => false
  end.


(** A handler that calls [load] on this loader itself. *)
Definition reenters (h : Handler) : bool :=
  match handler_body h with
  | [] => false
  | _ :: _ => true
  end.

Definition plain_pair (sc : IScriptCallbacks) : bool :=
  negb (reenters (callback sc)) && negb (reenters (errorback sc)).

Definition plain_op (op : Op) : bool :=
  match op with
  | OpLoad _ cb eb => plain_pair {| callback := cb; errorback := eb |}
  | OpComplete _ _ => true
  end.

(** A step that does not assign to [__proto__]. *)
Definition stores_entry (op : Op) : bool :=
  match op with
  | OpLoad src _ _ => negb (bool_decide (src = "__proto__"))
  | OpComplete _ _ => true
  end.

(** The callback pairs handed to [load] in a session, in order. *)
Definition loaded (ops : list Op) : list IScriptCallbacks :=
  flat_map (fun op =>
              match op with
              | OpLoad _ cb eb => [{| callback := cb; errorback := eb |}]
              | OpComplete _ _ => []
              end) ops.

(** All the callback pairs waiting in the map. *)
Definition waiting_pairs (m : gmap string (list IScriptCallbacks)) : list IScriptCallbacks :=
  concat (snd <$> map_to_list m).

(** No entry of the map is an empty queue. *)
Definition entries_nonempty (s : State Err) : Prop :=
  forall (L : string) (q : list IScriptCallbacks), callbackMap s !! L = Some q -> q <> [].

(** Every waiting pair is made of handlers that do not call [load]. *)
Definition all_plain (s : State Err) : Prop :=
  forall (L : string) (q : list IScriptCallbacks),
    callbackMap s !! L = Some q -> forallb plain_pair q = true.

End Sessions.

Arguments Op : clear implicits.

End OnlyOnceSessions.

(** ** More ways to read a trace of the NodeScriptLoader *)

Module NodeTraces.
Import NodeScriptLoader.

Section Traces.
Context {Err Buffer Value : Type}.

(** The read of the cache file: the one [readFile] without an encoding. *)
Definition is_cache_read (e : Event Err Buffer Value) : bool :=
  match e with
  | EReadFile _ None => true
  | _ => false
  end.

Definition is_recorder_event (e : Event Err Buffer Value) : bool :=
  match e with
  | ERecord _ _ => true
  | _ => false
  end.

(** Anything but the two callbacks of the caller and the registration
    of a module: file system, vm, recorder, timers, error hook. *)
Definition touches_host (e : Event Err Buffer Value) : bool :=
  match e with
  | ECallback | EErrorback _ | EEnqueueDefineAnonymousModule _ _ => false
  | _ => true
  end.

Definition task_path (task : Task Buffer) : string :=
  match task with
  | TUnlink p => p
  | TWriteFile p _ => p
  end.

(** The cache file an event is about, if it is about one. *)
Definition cache_path (e : Event Err Buffer Value) : option string :=
  match e with
  | EReadFile p None => Some p
  | EOnNodeCachedDataError _ p _ => Some p
  | ESetTimeout task _ => Some (task_path task)
  | EUnlink p => Some p
  | EWriteFile p _ => Some p
  | _ => None
  end.

Definition is_upper (c : ascii) : bool :=
  let n := Ascii.nat_of_ascii c in ((65 <=? n)%nat && (n <=? 90)%nat)%bool.

End Traces.

End NodeTraces.

(** ** BrowserScriptLoader *)

Module BrowserScriptLoader.

(** The two listeners that [attachListeners] makes for a script element;
    [unbind] is the closure both of them call first. *)
Inductive Listener : Type :=
| loadEventListener
| errorEventListener.

#[global] Instance Listener_eq_dec : EqDecision Listener.
Proof. solve_decision. Defined.

(** A script element: its attributes and its event listeners, in the
    order in which they were added. *)
Record HTMLScriptElement : Type := {
  attributes : gmap string string;
  listeners : list (string * Listener)
}.

(** The document: the script elements made so far, by number, and the
    children of its first [head] element ([None]: there is no such
    element). *)
Record Document : Type := {
  elements : gmap nat HTMLScriptElement;
  created : nat;
  head : option (list nat)
}.

Definition update (script : nat) (f : HTMLScriptElement -> HTMLScriptElement)
    (doc : Document) : Document :=
  {| elements := alter f script (elements doc);
     created := created doc;
     head := head doc |}.

(** [document.createElement('script')]: the new element and the document. *)
Definition createElement (doc : Document) : nat * Document :=
  (created doc,
   {| elements := <[created doc := {| attributes := ∅; listeners := [] |}]> (elements doc);
      created := S (created doc);
      head := head doc |}).

(** [script.setAttribute(name, value)] *)
Definition setAttribute (script : nat) (name value : string) : Document -> Document :=
  update script (fun el =>
    {| attributes := <[name := value]> (attributes el); listeners := listeners el |}).

(** [script.addEventListener(type, listener)]: a listener that is already
    there for the type is not added again. *)
Definition addEventListener (script : nat) (type : string) (l : Listener)
  : Document -> Document :=
  update script (fun el =>
    {| attributes := attributes el;
       listeners := if bool_decide ((type, l) ∈ listeners el) then listeners el
                    else listeners el ++ [(type, l)] |}).

(** [script.removeEventListener(type, listener)] *)
Definition removeEventListener (script : nat) (type : string) (l : Listener)
  : Document -> Document :=
  update script (fun el =>
    {| attributes := attributes el;
       listeners := List.filter (fun tl => negb (bool_decide (tl = (type, l)))) (listeners el) |}).

(** The listeners of an element that waits for its script. *)
Definition armed : list (string * Listener) :=
  [("load", loadEventListener); ("error", errorEventListener)].

Section Browser.
Context {Ev : Type}.

Inductive Event : Type :=
| ECallback               (* callback() *)
| EErrorback (e : Ev).    (* errorback(e) *)

(** [let unbind = () => { ... }] *)
Definition unbind (script : nat) (doc : Document) : Document :=
  removeEventListener script "error" errorEventListener
    (removeEventListener script "load" loadEventListener doc).

(** The bodies of [loadEventListener] and [errorEventListener]. *)
Definition handleEvent (l : Listener) (script : nat) (e : Ev) (doc : Document)
  : list Event * Document :=
  match l with
  | loadEventListener => ([ECallback], unbind script doc)
  | errorEventListener => ([EErrorback e], unbind script doc)
  end.

(** [private attachListeners(script, callback, errorback)] *)
Definition attachListeners (script : nat) (doc : Document) : Document :=
  addEventListener script "error" errorEventListener
    (addEventListener script "load" loadEventListener doc).

(** How [load] ends: it returns, or [appendChild] is called on
    [undefined] because the document has no [head]. *)
Inductive Outcome : Type :=
| Returned (doc : Document)
| TypeError (doc : Document).

(** [public load(moduleManager, scriptSrc, callback, errorback)] *)
Definition load (scriptSrc : string) (doc : Document) : nat * Outcome :=
  let '(script, doc) := createElement doc in
  let doc := setAttribute script "async" "async" doc in
  let doc := setAttribute script "type" "text/javascript" doc in
  let doc := attachListeners script doc in
  let doc := setAttribute script "src" scriptSrc doc in
  (script,
   match head doc with
   | Some children =>
       Returned {| elements := elements doc;
                   created := created doc;
                   head := Some (children ++ [script]) |}
   | None => TypeError doc
   end).

Definition registered (script : nat) (type : string) (l : Listener) (doc : Document) : bool :=
  match elements doc !! script with
  | Some el => bool_decide ((type, l) ∈ listeners el)
  | None => false
  end.

(** The browser fires an event of [type] at the element: the listeners
    that are there for the type when it starts are run in order, each
    unless it was removed in the meantime. *)
Definition dispatchEvent (script : nat) (type : string) (e : Ev) (doc : Document)
  : list Event * Document :=
  match elements doc !! script with
  | None => ([], doc)
  | Some el =>
      fold_left
        (fun (acc : list Event * Document) (tl : string * Listener) =>
           if registered script tl.1 tl.2 acc.2 then
             let '(calls, doc') := handleEvent tl.2 script e acc.2 in
             (acc.1 ++ calls, doc')
           else acc)
        (List.filter (fun tl => bool_decide (tl.1 = type)) (listeners el))
        ([], doc)
  end.

(** A run of events fired at one element. *)
Fixpoint dispatchEvents (script : nat) (events : list (string * Ev)) (doc : Document)
  : list Event * Document :=
  match events with
  | [] => ([], doc)
  | (type, e) :: events =>
      let '(calls, doc) := dispatchEvent script type e doc in
      let '(calls', doc) := dispatchEvents script events doc in
      (calls ++ calls', doc)
  end.

(** What the first [load] or [error] event of a run stands for. *)
Fixpoint first_outcome (events : list (string * Ev)) : list Event :=
  match events with
  | [] => []
  | (type, e) :: events =>
      if bool_decide (type = "load") then [ECallback]
      else if bool_decide (type = "error") then [EErrorback e]
      else first_outcome events
  end.

Definition listeners_of (script : nat) (doc : Document) : list (string * Listener) :=
  match elements doc !! script with
  | Some el => listeners el
  | None => []
  end.

Definition attributes_of (script : nat) (doc : Document) : gmap string string :=
  match elements doc !! script with
  | Some el => attributes el
  | None => ∅
  end.

Definition document_of (o : Outcome) : Document :=
  match o with
  | Returned doc => doc
  | TypeError doc => doc
  end.

End Browser.

Arguments Event : clear implicits.

End BrowserScriptLoader.

(** ** The modules of the NodeScriptLoader *)

Module NodeScriptLoaderInit.
Section Init.
Context {Err NodeModule : Type}.

(** The fields of a [NodeScriptLoader] object; a module that was not bound yet
    is [undefined]. *)
Record NodeScriptLoaderObject : Type := {
  _initialized : bool;
  _fs : option NodeModule;
  _vm : option NodeModule;
  _path : option NodeModule;
  _crypto : option NodeModule
}.

(** [constructor()] *)
Definition constructor : NodeScriptLoaderObject :=
  {| _initialized := false; _fs := None; _vm := None; _path := None; _crypto := None |}.

(** [private _init(nodeRequire)]: the loader afterwards, and what
    [nodeRequire] threw if it did.  The flag is set before the first
    module is required. *)
Definition _init (nodeRequire : string -> Err + NodeModule) (this : NodeScriptLoaderObject)
  : NodeScriptLoaderObject * option Err :=
  if _initialized this then (this, None)
  else
    let this := {| _initialized := true; _fs := _fs this; _vm := _vm this;
                   _path := _path this; _crypto := _crypto this |} in
    match nodeRequire "fs" with
    | inl err => (this, Some err)
    | inr fs =>
        let this := {| _initialized := true; _fs := Some fs; _vm := _vm this;
                       _path := _path this; _crypto := _crypto this |} in
        match nodeRequire "vm" with
        | inl err => (this, Some err)
        | inr vm =>
            let this := {| _initialized := true; _fs := _fs this; _vm := Some vm;
                           _path := _path this; _crypto := _crypto this |} in
            match nodeRequire "path" with
            | inl err => (this, Some err)
            | inr path =>
                let this := {| _initialized := true; _fs := _fs this; _vm := _vm this;
                               _path := Some path; _crypto := _crypto this |} in
                match nodeRequire "crypto" with
                | inl err => (this, Some err)
                | inr crypto =>
                    ({| _initialized := true; _fs := _fs this; _vm := _vm this;
                        _path := _path this; _crypto := Some crypto |}, None)
                end
            end
        end
    end.

(** The [_init] calls of a run of [load] calls, each with the
    [nodeRequire] of its options. *)
Definition inits (nodeRequires : list (string -> Err + NodeModule))
    (this : NodeScriptLoaderObject) : NodeScriptLoaderObject :=
  fold_left (fun this nodeRequire => fst (_init nodeRequire this)) nodeRequires this.

End Init.

Arguments NodeScriptLoaderObject : clear implicits.

End NodeScriptLoaderInit.

(** ** More sample inputs *)

Module MoreSamples.
Import Samples.

(** Two callers wait for [a.js], one for [b.js]; [a.js] is loaded, its
    second caller asks for it again, and that load fails. *)
Definition busy_session : list (OnlyOnceSessions.Op string) :=
  [OnlyOnceSessions.OpLoad "a.js"
     (OnlyOnceScriptLoader.callback first_caller) (OnlyOnceScriptLoader.errorback first_caller);
   OnlyOnceSessions.OpLoad "b.js"
     (OnlyOnceScriptLoader.callback late_caller) (OnlyOnceScriptLoader.errorback late_caller);
   OnlyOnceSessions.OpLoad "a.js"
     (OnlyOnceScriptLoader.callback second_caller) (OnlyOnceScriptLoader.errorback second_caller);
   OnlyOnceSessions.OpComplete "a.js" OnlyOnceScriptLoader.Loaded;
   OnlyOnceSessions.OpComplete "a.js" (OnlyOnceScriptLoader.Failed "404")].

(** The same without the caller that asks again, and with [b.js] still
    on its way at the end. *)
Definition plain_session : list (OnlyOnceSessions.Op string) :=
  [OnlyOnceSessions.OpLoad "a.js"
     (OnlyOnceScriptLoader.callback first_caller) (OnlyOnceScriptLoader.errorback first_caller);
   OnlyOnceSessions.OpLoad "b.js"
     (OnlyOnceScriptLoader.callback late_caller) (OnlyOnceScriptLoader.errorback late_caller);
   OnlyOnceSessions.OpLoad "a.js"
     (OnlyOnceScriptLoader.callback late_caller) (OnlyOnceScriptLoader.errorback late_caller);
   OnlyOnceSessions.OpComplete "a.js" (OnlyOnceScriptLoader.Failed "404")].

(** Two callers ask for [__proto__]; the wrapped loader completes both
    loads. *)
Definition proto_session : list (OnlyOnceSessions.Op string) :=
  [OnlyOnceSessions.OpLoad "__proto__"
     (OnlyOnceScriptLoader.callback first_caller) (OnlyOnceScriptLoader.errorback first_caller);
   OnlyOnceSessions.OpLoad "__proto__"
     (OnlyOnceScriptLoader.callback late_caller) (OnlyOnceScriptLoader.errorback late_caller);
   OnlyOnceSessions.OpComplete "__proto__" OnlyOnceScriptLoader.Loaded;
   OnlyOnceSessions.OpComplete "__proto__" OnlyOnceScriptLoader.Loaded].


(** A worker whose import fails and whose failure callback throws. *)
Definition importScripts_fails (scriptSrc : string) (w : unit)
  : WorkerScriptLoader.Outcome string unit :=
  WorkerScriptLoader.Thrown "NetworkError" w.

Definition returning_callback (w : unit) : WorkerScriptLoader.Outcome string unit :=
  WorkerScriptLoader.Returned w.

Definition throwing_errorback (err : string) (w : unit)
  : WorkerScriptLoader.Outcome string unit :=
  WorkerScriptLoader.Thrown "errorback failed" w.

(** No cache directory: the empty string. *)
Definition uncached_options : NodeScriptLoader.Options :=
  {| NodeScriptLoader.nodeInstrumenter := None;
     NodeScriptLoader.nodeCachedDataDir := Some "";
     NodeScriptLoader.nodeCachedDataWriteDelay := 10 |}.

(** A host whose script cannot be read. *)
Definition unreadable_host : NodeScriptLoader.Host string (list N) string :=
  {| NodeScriptLoader.nodeRequire := NodeScriptLoader.nodeRequire cold_host;
     NodeScriptLoader._fs :=
       {| NodeScriptLoader.readFile_utf8 := fun _ => inl "ENOENT";
          NodeScriptLoader.readFile := fun _ => None;
          NodeScriptLoader.writeFile := fun _ _ => None;
          NodeScriptLoader.unlink := fun _ => None |};
     NodeScriptLoader._vm := NodeScriptLoader._vm cold_host;
     NodeScriptLoader._path := NodeScriptLoader._path cold_host;
     NodeScriptLoader._crypto := NodeScriptLoader._crypto cold_host;
     NodeScriptLoader.isElectronRenderer := false;
     NodeScriptLoader.fileUriToFilePath := fun uri => uri;
     NodeScriptLoader.Math_random := 0 |}.

(** A page with an empty [head]. *)
Definition empty_page : BrowserScriptLoader.Document :=
  {| BrowserScriptLoader.elements := ∅;
     BrowserScriptLoader.created := 0;
     BrowserScriptLoader.head := Some [] |}.

(** A [nodeRequire] without the [vm] module. *)
Definition nodeRequire_without_vm (name : string) : string + string :=
  if String.eqb name "vm" then inl "Cannot find module 'vm'" else inr name.

End MoreSamples.

(** * Properties *)

(** ** OnlyOnceScriptLoader *)

Section OnlyOnceScriptLoader_facts.
Import OnlyOnceScriptLoader.
Context {Err : Type}.
Implicit Types (s : State Err) (c : Completion Err) (t d : list (Event Err)).
Implicit Types (rs : list Request) (q cbs more : list IScriptCallbacks).
Implicit Types (realm : Realm).






Lemma actual_loads_app (L : string) t d :
  actual_loads L (t ++ d) = actual_loads L t + actual_loads L d.
Proof. unfold actual_loads. by rewrite List.filter_app, length_app. Qed.

Lemma invocations_app t d : invocations (t ++ d) = invocations t ++ invocations d.
Proof. apply List.filter_app. Qed.

(** Requests that are [quiet] ask nothing for [hasOwnProperty]. *)
Lemma quiet_requested rs : quiet rs -> requested "hasOwnProperty" rs = [].
Proof.
  unfold quiet, requested. induction 1 as [|r rs Hr _ IH]; [done|].
  simpl. by rewrite bool_decide_eq_false_2.
Qed.







Lemma notification_call_event c (sc : IScriptCallbacks) :
  notification c sc = call_event c (handler_id (chosen c sc)).
Proof. by destruct c. Qed.


Lemma notify_cons c (sc : IScriptCallbacks) q s :
  notify c (sc :: q) s = and_then (invoke (call_event c) (chosen c sc) s) (notify c q).
Proof. reflexivity. Qed.




(** A completion that finds an entry is the notification loop run on the
    state in which the entry has already been deleted. *)
Lemma complete_unfold realm (L : string) c q s :
  callbackMap s !! L = Some q ->
  complete realm L c s = notify c q (set_callbackMap (delete L (callbackMap s)) s).
Proof.
  intros Hq. destruct c; simpl; unfold triggerCallback, triggerErrorback, get;
    by rewrite Hq.
Qed.


(** What a completion does when the name is not an own property. *)
Lemma complete_inherited realm (K : string) c s :
  callbackMap s !! K = None ->
  complete realm K c s
  = match get realm s K with
    | VArray a => notify c a s
    | VInherited Nothing => TypeError s
    | VInherited (AFunction 0) => Returned s
    | VInherited (AFunction (S _)) => TypeError s
    | VInherited NoLength => Returned s
    end.
Proof.
  intros HK.
  assert (Hs : set_callbackMap (delete K (callbackMap s)) s = s).
  { unfold set_callbackMap. rewrite delete_id by done. by destruct s. }
  destruct c; simpl; unfold triggerCallback, triggerErrorback; rewrite Hs;
    by destruct (get realm s K) as [a|[|[|n]|]].
Qed.


(** A completion that returns is the notification loop run on some
    batch, after the [delete]: the entry of the name when it has one. *)
Lemma complete_Returned realm (K : string) c s s' :
  complete realm K c s = Returned s' ->
  exists q, notify c q (set_callbackMap (delete K (callbackMap s)) s) = Returned s'
    /\ (callbackMap s !! K = Some q
        \/ callbackMap s !! K = None
           /\ (q = [] \/ K = "__proto__" /\ prototype s = Some q)).
Proof.
  destruct (callbackMap s !! K) as [q|] eqn:Hq.
  - rewrite (complete_unfold realm K c q s Hq). intros Hn. exists q. split; [done | by left].
  - assert (Hs : set_callbackMap (delete K (callbackMap s)) s = s).
    { unfold set_callbackMap. rewrite delete_id by done. by destruct s. }
    rewrite (complete_inherited realm K c s Hq), Hs. unfold get. rewrite Hq.
    destruct (bool_decide (K = "__proto__")) eqn:HK.
    + apply bool_decide_eq_true_1 in HK. destruct (prototype s) as [a|] eqn:Hp.
      * intros Hn. exists a. split; [done|]. right. split; [done|]. by right.
      * intros [= <-]. exists []. split; [done|]. right. split; [done | by left].
    + destruct (inherited realm (prototype s) K) as [|[|n]|]; intros [= <-];
        exists []; (split; [done|]); right; (split; [done | by left]).
Qed.






End OnlyOnceScriptLoader_facts.

Section OnlyOnceScriptLoader_examples.
Import OnlyOnceScriptLoader Samples.








(** The reentrant request of the sample is served by a load of its own. *)
Example reentrant_load_of_sample :
  (fun s => (trace s, callbackMap s !! "a.js"))
    (state_of (complete standard_realm "a.js" Loaded (waiting [second_caller; first_caller])))
  = ([EActualLoad "a.js"; ECallback 3; EActualLoad "a.js"; ECallback 1],
     Some [late_caller]).
Proof. reflexivity. Qed.

(** A name that the object inherits as a function without parameters:
    the second completion of [toString] finds the function, loops over
    nothing and returns. *)
Example second_completion_of_toString :
  exists s1 s2,
    load "toString" (callback first_caller) (errorback first_caller) fresh_loader = Returned s1
    /\ complete standard_realm "toString" Loaded s1 = Returned s2
    /\ trace s2 = [EActualLoad "toString"; ECallback 1]
    /\ complete standard_realm "toString" (Failed "late") s2 = Returned s2.
Proof. eexists _, _. split_and!; reflexivity. Qed.

End OnlyOnceScriptLoader_examples.

(** ** WorkerScriptLoader *)

Section WorkerScriptLoader_facts.
Import WorkerScriptLoader.
Context {Err W : Type}.
Implicit Types (importScripts : string -> W -> Outcome Err W).
Implicit Types (callback : W -> Outcome Err W) (errorback : Err -> W -> Outcome Err W).

(** The three ways through [load]. *)
Lemma load_import_throws importScripts scriptSrc callback errorback w calls err w1 :
  importScripts scriptSrc w = Thrown err w1 ->
  load importScripts scriptSrc callback errorback w calls
    = exec (errorback err) w1 (calls ++ [EErrorback err]).
Proof. intros Hi. unfold load, try_catch, seq, call, exec. by rewrite Hi. Qed.

Lemma load_callback_returns importScripts scriptSrc callback errorback w calls w1 w2 :
  importScripts scriptSrc w = Returned w1 ->
  callback w1 = Returned w2 ->
  load importScripts scriptSrc callback errorback w calls = Done w2 (calls ++ [ECallback]).
Proof. intros Hi Hc. unfold load, try_catch, seq, call, exec. by rewrite Hi, Hc. Qed.

Lemma load_callback_throws importScripts scriptSrc callback errorback w calls w1 err w2 :
  importScripts scriptSrc w = Returned w1 ->
  callback w1 = Thrown err w2 ->
  load importScripts scriptSrc callback errorback w calls
    = exec (errorback err) w2 (calls ++ [ECallback; EErrorback err]).
Proof.
  intros Hi Hc. unfold load, try_catch, seq, call, exec.
  rewrite Hi, Hc. by rewrite <- app_assoc.
Qed.

Lemma calls_of_exec (f : W -> Outcome Err W) w calls : calls_of (exec f w calls) = calls.
Proof. unfold exec. by destruct (f w). Qed.

(** With a success callback that returns, [load] calls exactly one of the
    two functions, once, before it ends: [errorback] when [importScripts]
    throws and [callback] otherwise. *)
Lemma load_exactly_one importScripts scriptSrc callback errorback w :
  returns callback ->
  calls_of (load importScripts scriptSrc callback errorback w [])
    = match importScripts scriptSrc w with
      | Returned _ => [ECallback]
      | Thrown err _ => [EErrorback err]
      end.
Proof.
  intros Hret. destruct (importScripts scriptSrc w) as [w1|err w1] eqn:Hi.
  - destruct (Hret w1) as [w2 Hc].
    by rewrite (load_callback_returns _ _ _ _ _ _ _ _ Hi Hc).
  - by rewrite (load_import_throws _ _ _ _ _ _ _ _ Hi), calls_of_exec.
Qed.

End WorkerScriptLoader_facts.

Section WorkerScriptLoader_examples.
Import WorkerScriptLoader Samples.

(** C3 at an input that breaks it: [importScripts] returns and the
    success callback throws.  The call of [callback] sits inside the
    [try] block, so the [catch] clause calls [errorback] with what the
    callback threw: both functions are called, and the failure callback
    is called although the import did not throw. *)
Theorem C3_throwing_callback_reaches_errorback_too :
  importScripts_ok "worker.js" tt = Returned tt
  /\ load importScripts_ok "worker.js" throwing_callback quiet_errorback tt []
     = Done tt [ECallback; EErrorback "boom"].
Proof. split; reflexivity. Qed.

(** The same loader on a callback that returns: one call, of the success
    callback. *)
Example returning_callback_sample :
  load importScripts_ok "worker.js" (fun w => Returned w) quiet_errorback tt []
  = Done tt [ECallback].
Proof. reflexivity. Qed.

End WorkerScriptLoader_examples.

(** ** Numbers *)

Section Numbers_facts.
Import Numbers.
Local Open Scope Q_scope.

Lemma pow2_pos (e : Z) : 0 < pow2 e.
Proof. apply Qpower_0_lt. reflexivity. Qed.

Lemma pow2_add (a b : Z) : pow2 (a + b) == pow2 a * pow2 b.
Proof. apply Qpower_plus. discriminate. Qed.

Lemma pow2_le (a b : Z) : (a <= b)%Z -> pow2 a <= pow2 b.
Proof. intros H. apply Qpower_le_compat_l; [done | discriminate]. Qed.

Lemma pow2_lt (a b : Z) : (a < b)%Z -> pow2 a < pow2 b.
Proof. intros H. apply Qpower_lt_compat_l; [done | reflexivity]. Qed.

Lemma pow2_lt_inv (a b : Z) : pow2 a < pow2 b -> (a < b)%Z.
Proof. intros H. apply (Qpower_lt_compat_l_inv 2); [done | reflexivity]. Qed.

Lemma pow2_Z (j : Z) : (0 <= j)%Z -> pow2 j == inject_Z (2 ^ j).
Proof. intros H. unfold pow2. by rewrite Zpower_Qpower. Qed.

Lemma pow2_succ (a : Z) : pow2 (a + 1) == 2 * pow2 a.
Proof. rewrite pow2_add. change (pow2 1) with 2. ring. Qed.

Lemma log2_floor_spec (x : Q) :
  ~ x == 0 -> pow2 (log2_floor x) <= Qabs x /\ Qabs x < pow2 (log2_floor x + 1).
Proof.
  intros Hx. unfold log2_floor.
  set (a := Z.log2 (Z.abs (Qnum x))). set (b := Z.log2 (Zpos (Qden x))).
  assert (HN : (0 < Z.abs (Qnum x))%Z).
  { destruct x as [n d]. unfold Qeq in Hx. simpl in *. lia. }
  assert (Ha0 : (0 <= a)%Z) by apply Z.log2_nonneg.
  assert (Hb0 : (0 <= b)%Z) by apply Z.log2_nonneg.
  destruct (Z.log2_spec _ HN) as [Ha1 Ha2]. fold a in Ha1, Ha2.
  destruct (Z.log2_spec (Zpos (Qden x)) ltac:(done)) as [Hb1 Hb2]. fold b in Hb1, Hb2.
  set (v := Qabs x). set (D := inject_Z (Zpos (Qden x))). set (N := inject_Z (Z.abs (Qnum x))).
  assert (HvD : v * D == N).
  { unfold v, D, N. destruct x as [n d]. unfold Qeq. simpl. lia. }
  assert (Hv0 : 0 <= v) by apply Qabs_nonneg.
  assert (HNa : pow2 a <= N /\ N < pow2 (a + 1)).
  { unfold N. rewrite !pow2_Z by lia. split; [by rewrite <- Zle_Qle | by rewrite <- Zlt_Qlt]. }
  assert (HDb : pow2 b <= D /\ D < pow2 (b + 1)).
  { unfold D. rewrite !pow2_Z by lia. split; [by rewrite <- Zle_Qle | by rewrite <- Zlt_Qlt]. }
  destruct HNa as [HN1 HN2]. destruct HDb as [HD1 HD2].
  pose proof (pow2_pos b) as Hpb. pose proof (pow2_pos (a - b - 1)) as Hpl.
  pose proof (pow2_pos (a - b + 1)) as Hph.
  assert (Hhigh : v < pow2 (a - b + 1)).
  { apply Qnot_le_lt. intros Hle.
    assert (Hprod : pow2 (a - b + 1) * pow2 b <= v * D).
    { apply Qmult_le_compat_nonneg; split; lra. }
    rewrite <- pow2_add, HvD in Hprod. replace (a - b + 1 + b)%Z with (a + 1)%Z in Hprod by lia.
    lra. }
  assert (Hlow : pow2 (a - b - 1) < v).
  { apply Qnot_le_lt. intros Hle.
    assert (Hprod : v * D <= pow2 (a - b - 1) * D).
    { apply Qmult_le_compat_r; lra. }
    assert (Hprod2 : pow2 (a - b - 1) * D < pow2 (a - b - 1) * pow2 (b + 1)).
    { apply Qmult_lt_l; lra. }
    rewrite <- pow2_add in Hprod2. replace (a - b - 1 + (b + 1))%Z with a in Hprod2 by lia.
    lra. }
  destruct (Qle_bool (pow2 (a - b)) v) eqn:Hcmp.
  - apply Qle_bool_iff in Hcmp. split; [done|]. exact Hhigh.
  - assert (Hlt : v < pow2 (a - b)).
    { apply Qnot_le_lt. intros Hle. apply Qle_bool_iff in Hle. congruence. }
    replace (a - b - 1 + 1)%Z with (a - b)%Z by lia. split; [lra | done].
Qed.

(** The exponent found for a magnitude is the only one. *)
Lemma log2_unique (a b : Z) (v w : Q) :
  pow2 a <= v -> w < pow2 (b + 1) -> v <= w -> (a <= b)%Z.
Proof.
  intros Ha Hb Hvw. assert (H : pow2 a < pow2 (b + 1)) by lra.
  apply pow2_lt_inv in H. lia.
Qed.

Lemma log2_floor_mono (x y : Q) :
  ~ x == 0 -> Qabs x <= Qabs y -> (log2_floor x <= log2_floor y)%Z.
Proof.
  intros Hx Hxy.
  assert (Hy : ~ y == 0).
  { intros Hy. rewrite Hy in Hxy. change (Qabs 0) with 0 in Hxy.
    apply Hx. pose proof (Qabs_nonneg x) as H0.
    assert (Hz : Qabs x == 0) by lra.
    destruct (Qabs_Qle_condition x 0) as [H1 _]. destruct H1 as [H1 H2]; lra. }
  destruct (log2_floor_spec x Hx) as [Hx1 _]. destruct (log2_floor_spec y Hy) as [_ Hy2].
  by eapply log2_unique.
Qed.

Lemma exponent_min (x : Q) : (-1074 <= exponent x)%Z.
Proof. unfold exponent. destruct (Qeq_bool x 0); lia. Qed.

(** Above the subnormal numbers a double has 53 digits. *)
Lemma exponent_normal (x : Q) :
  (-1074 < exponent x)%Z -> pow2 (exponent x + 52) <= Qabs x.
Proof.
  unfold exponent. destruct (Qeq_bool x 0) eqn:Hx; [lia|].
  intros He. apply Qeq_bool_neq in Hx. destruct (log2_floor_spec x Hx) as [H1 _].
  replace (Z.max (log2_floor x - 52) (-1074) + 52)%Z with (log2_floor x) by lia. done.
Qed.

Lemma exponent_bound (x : Q) : Qabs x < pow2 (exponent x + 53).
Proof.
  unfold exponent. destruct (Qeq_bool x 0) eqn:Hx.
  - apply Qeq_bool_iff in Hx. rewrite Hx. apply pow2_pos.
  - apply Qeq_bool_neq in Hx. destruct (log2_floor_spec x Hx) as [_ H2].
    eapply Qlt_le_trans; [exact H2|]. apply pow2_le. lia.
Qed.

Lemma exponent_mono (x y : Q) : Qabs x <= Qabs y -> (exponent x <= exponent y)%Z.
Proof.
  intros Hxy. unfold exponent at 1. destruct (Qeq_bool x 0) eqn:Hx; [apply exponent_min|].
  apply Qeq_bool_neq in Hx. unfold exponent. destruct (Qeq_bool y 0) eqn:Hy.
  - apply Qeq_bool_iff in Hy. rewrite Hy in Hxy. change (Qabs 0) with 0 in Hxy.
    exfalso. apply Hx. destruct (Qabs_Qle_condition x 0) as [H1 _].
    destruct H1 as [H1 H2]; lra.
  - pose proof (log2_floor_mono x y Hx Hxy). lia.
Qed.

Lemma exponent_comp (x y : Q) : x == y -> exponent x = exponent y.
Proof.
  intros Hxy. apply Z.le_antisymm; apply exponent_mono; rewrite Hxy; apply Qle_refl.
Qed.

Lemma round_half_even_Z (z : Z) : round_half_even (inject_Z z) = z.
Proof.
  unfold round_half_even. rewrite Qfloor_Z.
  destruct (Qcompare_spec (inject_Z z - inject_Z z) (1 # 2)) as [H|H|H];
    [exfalso; lra | done | exfalso; lra].
Qed.

Lemma round_half_even_bounds (t : Q) :
  (Qfloor t <= round_half_even t <= Qfloor t + 1)%Z.
Proof.
  unfold round_half_even.
  destruct (t - inject_Z (Qfloor t) ?= 1 # 2); [destruct (Z.even (Qfloor t))|..]; lia.
Qed.

Lemma round_half_even_mono (t u : Q) :
  t <= u -> (round_half_even t <= round_half_even u)%Z.
Proof.
  intros Htu. pose proof (Qfloor_resp_le t u Htu) as Hf.
  destruct (Z.eq_dec (Qfloor t) (Qfloor u)) as [Heq|Hne].
  - unfold round_half_even. rewrite <- Heq.
    destruct (Qcompare_spec (t - inject_Z (Qfloor t)) (1 # 2)) as [Ht|Ht|Ht];
      destruct (Qcompare_spec (u - inject_Z (Qfloor t)) (1 # 2)) as [Hu|Hu|Hu];
      destruct (Z.even (Qfloor t)); try lia; exfalso; lra.
  - pose proof (round_half_even_bounds t). pose proof (round_half_even_bounds u). lia.
Qed.

Lemma pow2_split (j e : Z) : (e <= j)%Z -> pow2 j == inject_Z (2 ^ (j - e)) * pow2 e.
Proof.
  intros H. rewrite <- pow2_Z by lia. rewrite <- pow2_add. by replace (j - e + e)%Z with j by lia.
Qed.

Section Rounding.
Variable rnd : Q -> Z.
Hypothesis rnd_mono : forall t u : Q, t <= u -> (rnd t <= rnd u)%Z.
Hypothesis rnd_Z : forall z : Z, rnd (inject_Z z) = z.

(** Rounding does not cross a number of the grid that [x] is rounded
    to, nor of a coarser one. *)
Lemma on_grid_le (x : Q) (s j : Z) :
  (exponent x <= j)%Z -> x <= inject_Z s * pow2 j -> on_grid rnd x <= inject_Z s * pow2 j.
Proof.
  intros Hj Hx. unfold on_grid. set (e := exponent x) in *. pose proof (pow2_pos e) as He.
  assert (Hs : inject_Z s * pow2 j == inject_Z (s * 2 ^ (j - e)) * pow2 e).
  { rewrite (pow2_split j e Hj), inject_Z_mult. ring. }
  rewrite Hs in Hx |- *.
  apply Qmult_le_compat_r; [|lra]. rewrite <- Zle_Qle.
  rewrite <- (rnd_Z (s * 2 ^ (j - e))). apply rnd_mono.
  by apply Qle_shift_div_r.
Qed.

Lemma le_on_grid (x : Q) (s j : Z) :
  (exponent x <= j)%Z -> inject_Z s * pow2 j <= x -> inject_Z s * pow2 j <= on_grid rnd x.
Proof.
  intros Hj Hx. unfold on_grid. set (e := exponent x) in *. pose proof (pow2_pos e) as He.
  assert (Hs : inject_Z s * pow2 j == inject_Z (s * 2 ^ (j - e)) * pow2 e).
  { rewrite (pow2_split j e Hj), inject_Z_mult. ring. }
  rewrite Hs in Hx |- *.
  apply Qmult_le_compat_r; [|lra]. rewrite <- Zle_Qle.
  rewrite <- (rnd_Z (s * 2 ^ (j - e))) at 1. apply rnd_mono.
  by apply Qle_shift_div_l.
Qed.

(** Rounding is monotone, also from one exponent to the next. *)
Lemma on_grid_mono (x y : Q) : x <= y -> on_grid rnd x <= on_grid rnd y.
Proof.
  intros Hxy. destruct (Z.lt_trichotomy (exponent x) (exponent y)) as [Hlt|[Heq|Hgt]].
  - pose proof (exponent_min x). pose proof (exponent_normal y ltac:(lia)) as Hy.
    pose proof (exponent_bound x) as Hx.
    assert (Hp : pow2 (exponent x + 53) <= pow2 (exponent y + 52)) by (apply pow2_le; lia).
    assert (Hx' : x < pow2 (exponent y + 52)) by (pose proof (Qle_Qabs x); lra).
    assert (Hy' : pow2 (exponent y + 52) <= y).
    { destruct (Qlt_le_dec y 0) as [Hneg|Hpos].
      - rewrite (Qabs_neg y) in Hy by lra. destruct (Qlt_le_dec x 0) as [Hxn|Hxp].
        + rewrite (Qabs_neg x) in Hx by lra. lra.
        + lra.
      - by rewrite (Qabs_pos y) in Hy. }
    apply Qle_trans with (inject_Z 1 * pow2 (exponent y + 52)).
    + apply on_grid_le; [lia|]. change (inject_Z 1) with 1. lra.
    + apply le_on_grid; [lia|]. change (inject_Z 1) with 1. lra.
  - unfold on_grid. rewrite Heq. pose proof (pow2_pos (exponent y)) as He.
    apply Qmult_le_compat_r; [|lra]. rewrite <- Zle_Qle. apply rnd_mono.
    apply Qmult_le_compat_r; [done|]. apply Qlt_le_weak, Qinv_lt_0_compat, He.
  - pose proof (exponent_min y). pose proof (exponent_normal x ltac:(lia)) as Hx.
    pose proof (exponent_bound y) as Hy.
    assert (Hp : pow2 (exponent y + 53) <= pow2 (exponent x + 52)) by (apply pow2_le; lia).
    assert (Hy' : - pow2 (exponent x + 52) < y).
    { destruct (Qlt_le_dec y 0) as [Hneg|Hpos].
      - rewrite (Qabs_neg y) in Hy by lra. lra.
      - pose proof (pow2_pos (exponent x + 52)). lra. }
    assert (Hx' : x <= - pow2 (exponent x + 52)).
    { destruct (Qlt_le_dec x 0) as [Hneg|Hpos].
      - rewrite (Qabs_neg x) in Hx by lra. lra.
      - rewrite (Qabs_pos x) in Hx by done. destruct (Qlt_le_dec y 0) as [Hyn|Hyp].
        + lra.
        + rewrite (Qabs_pos y) in Hy by done. lra. }
    apply Qle_trans with (inject_Z (-1) * pow2 (exponent x + 52)).
    + apply on_grid_le; [lia|]. change (inject_Z (-1)) with (-1 # 1). lra.
    + apply le_on_grid; [lia|]. change (inject_Z (-1)) with (-1 # 1). lra.
Qed.

(** A number on the grid that it is rounded to, or on a coarser one, is
    left as it is. *)
Lemma on_grid_exact (x : Q) (m j : Z) :
  (exponent x <= j)%Z -> x == inject_Z m * pow2 j -> on_grid rnd x == x.
Proof.
  intros Hj Hx. apply Qle_antisym.
  - rewrite Hx at 2. apply on_grid_le; [done|]. rewrite Hx. apply Qle_refl.
  - rewrite Hx at 1. apply le_on_grid; [done|]. rewrite Hx. apply Qle_refl.
Qed.

End Rounding.

Lemma nearest_double_eq (x : Q) : nearest_double x == on_grid round_half_even x.
Proof. apply Qred_correct. Qed.

Lemma nearest_double_le_grid (x : Q) (s j : Z) :
  (exponent x <= j)%Z -> x <= inject_Z s * pow2 j -> nearest_double x <= inject_Z s * pow2 j.
Proof.
  rewrite nearest_double_eq.
  apply on_grid_le; [apply round_half_even_mono | apply round_half_even_Z].
Qed.

Lemma grid_le_nearest_double (x : Q) (s j : Z) :
  (exponent x <= j)%Z -> inject_Z s * pow2 j <= x -> inject_Z s * pow2 j <= nearest_double x.
Proof.
  rewrite nearest_double_eq.
  apply le_on_grid; [apply round_half_even_mono | apply round_half_even_Z].
Qed.

(** Rounding to the nearest double is monotone. *)
Lemma nearest_double_mono (x y : Q) : x <= y -> nearest_double x <= nearest_double y.
Proof.
  rewrite !nearest_double_eq.
  apply on_grid_mono; [apply round_half_even_mono | apply round_half_even_Z].
Qed.

Lemma nearest_double_comp (x y : Q) : x == y -> nearest_double x == nearest_double y.
Proof.
  intros Hxy. apply Qle_antisym; apply nearest_double_mono; rewrite Hxy; apply Qle_refl.
Qed.

Lemma nearest_double_ext (x y : Q) : x == y -> nearest_double x = nearest_double y.
Proof.
  intros Hxy. unfold nearest_double, on_grid. apply Qred_complete.
  rewrite (exponent_comp x y Hxy).
  assert (Hr : round_half_even (x / pow2 (exponent y))
               = round_half_even (y / pow2 (exponent y))).
  { apply Z.le_antisymm; apply round_half_even_mono; rewrite Hxy; apply Qle_refl. }
  by rewrite Hr.
Qed.

Lemma nearest_double_0 : nearest_double 0 == 0.
Proof. reflexivity. Qed.

(** The numbers on the grid that [x] is rounded to, or on a coarser one,
    are doubles. *)
Lemma is_double_grid (x : Q) (m j : Z) :
  (exponent x <= j)%Z -> x == inject_Z m * pow2 j -> is_double x.
Proof.
  intros Hj Hx. unfold is_double. rewrite nearest_double_eq.
  by apply (on_grid_exact round_half_even round_half_even_mono round_half_even_Z x m j).
Qed.

Lemma exponent_twice (x : Q) : (exponent (2 * x) <= exponent x + 1)%Z.
Proof.
  unfold exponent. destruct (Qeq_bool x 0) eqn:Hx.
  - apply Qeq_bool_iff in Hx. assert (H2 : 2 * x == 0) by (rewrite Hx; ring).
    apply Qeq_bool_iff in H2. rewrite H2. lia.
  - apply Qeq_bool_neq in Hx. destruct (Qeq_bool (2 * x) 0) eqn:H2; [lia|].
    apply Qeq_bool_neq in H2.
    destruct (log2_floor_spec x Hx) as [_ Hhi]. destruct (log2_floor_spec (2 * x) H2) as [Hlo _].
    rewrite Qabs_Qmult in Hlo. change (Qabs 2) with 2 in Hlo.
    assert (H : pow2 (log2_floor (2 * x)) < pow2 (log2_floor x + 1 + 1)).
    { rewrite (pow2_succ (log2_floor x + 1)). lra. }
    apply pow2_lt_inv in H. lia.
Qed.

(** Twice a double is a double. *)
Lemma is_double_twice (d : Q) : is_double d -> is_double (2 * d).
Proof.
  intros Hd. unfold is_double in Hd. rewrite nearest_double_eq in Hd. unfold on_grid in Hd.
  apply (is_double_grid (2 * d) (round_half_even (d / pow2 (exponent d))) (exponent d + 1)).
  - apply exponent_twice.
  - rewrite pow2_succ. rewrite <- Hd at 1. ring.
Qed.

Lemma Qabs_inject_Z (z : Z) : Qabs (inject_Z z) = inject_Z (Z.abs z).
Proof. reflexivity. Qed.

Lemma Qabs_grid (m e : Z) : Qabs (inject_Z m * pow2 e) == inject_Z (Z.abs m) * pow2 e.
Proof.
  rewrite Qabs_Qmult, Qabs_inject_Z, (Qabs_pos (pow2 e)); [reflexivity|].
  apply Qlt_le_weak, pow2_pos.
Qed.

(** The doubles are the numbers of 53 binary digits. *)
Lemma representable_is_double (y : Q) : representable y -> is_double y.
Proof.
  intros (m & e & Hm & He & Hy). apply (is_double_grid y m e); [|done].
  unfold exponent. destruct (Qeq_bool y 0) eqn:H0; [lia|].
  apply Qeq_bool_neq in H0. destruct (log2_floor_spec y H0) as [Hlo _].
  assert (Habs : Qabs y == inject_Z (Z.abs m) * pow2 e) by (rewrite Hy; apply Qabs_grid).
  assert (Hlt : inject_Z (Z.abs m) * pow2 e < pow2 (53 + e)).
  { rewrite pow2_add, (pow2_Z 53) by lia. apply Qmult_lt_r; [apply pow2_pos|].
    by rewrite <- Zlt_Qlt. }
  assert (H : pow2 (log2_floor y) < pow2 (53 + e)) by lra.
  apply pow2_lt_inv in H. lia.
Qed.

Lemma is_double_representable (y : Q) : is_double y -> representable y.
Proof.
  intros Hy. unfold is_double in Hy. rewrite nearest_double_eq in Hy. unfold on_grid in Hy.
  set (m := round_half_even (y / pow2 (exponent y))) in *.
  exists m, (exponent y). split; [|split; [apply exponent_min | by symmetry]].
  pose proof (exponent_bound y) as Hb.
  assert (Habs : Qabs y == inject_Z (Z.abs m) * pow2 (exponent y)).
  { rewrite <- Hy at 1. apply Qabs_grid. }
  rewrite Z.add_comm, pow2_add, (pow2_Z 53), Habs in Hb by lia.
  apply Qmult_lt_r in Hb; [|apply pow2_pos]. by rewrite <- Zlt_Qlt in Hb.
Qed.

(** The whole numbers below [2^53] are doubles. *)
Lemma is_double_Z (z : Z) : (Z.abs z < 2 ^ 53)%Z -> is_double (inject_Z z).
Proof.
  intros Hz. apply representable_is_double. exists z, 0%Z.
  split; [done|]. split; [lia|]. change (pow2 0) with 1. ring.
Qed.

Lemma nearest_double_Z (z : Z) :
  (Z.abs z < 2 ^ 53)%Z -> nearest_double (inject_Z z) = inject_Z z.
Proof.
  intros Hz. pose proof (is_double_Z z Hz) as Hd. unfold is_double, nearest_double in *.
  rewrite Qred_correct in Hd. rewrite (Qred_complete _ _ Hd). apply inject_Z_Qred.
Qed.

(** What rounding gives is a double. *)
Lemma nearest_double_representable (x : Q) : representable (nearest_double x).
Proof.
  set (e := exponent x). set (m := round_half_even (x / pow2 e)).
  assert (Hnd : nearest_double x == inject_Z m * pow2 e) by apply nearest_double_eq.
  pose proof (pow2_pos e) as He. pose proof (exponent_bound x) as Hb. fold e in Hb.
  rewrite Z.add_comm, pow2_add, (pow2_Z 53) in Hb by lia.
  apply Qabs_Qlt_condition in Hb as [Hb1 Hb2].
  assert (Hm1 : (m <= 2 ^ 53)%Z).
  { rewrite <- (round_half_even_Z (2 ^ 53)). apply round_half_even_mono.
    apply Qle_shift_div_r; [done|]. lra. }
  assert (Hm2 : (- 2 ^ 53 <= m)%Z).
  { rewrite <- (round_half_even_Z (- 2 ^ 53)). apply round_half_even_mono.
    apply Qle_shift_div_l; [done|]. rewrite inject_Z_opp. lra. }
  destruct (Z.eq_dec (Z.abs m) (2 ^ 53)%Z) as [Heq|Hne].
  - exists (m / 2)%Z, (e + 1)%Z. split; [|split].
    + assert (Hcases : m = (2 ^ 53)%Z \/ m = (- 2 ^ 53)%Z) by lia.
      destruct Hcases as [-> | ->]; vm_compute; reflexivity.
    + pose proof (exponent_min x). lia.
    + rewrite Hnd, pow2_succ.
      assert (Hcases : m = (2 ^ 53)%Z \/ m = (- 2 ^ 53)%Z) by lia.
      assert (Hhalf : inject_Z m == 2 * inject_Z (m / 2)).
      { destruct Hcases as [-> | ->]; vm_compute; reflexivity. }
      rewrite Hhalf. ring.
  - exists m, e. split; [lia|]. split; [apply exponent_min | done].
Qed.

Lemma nearest_double_is_double (x : Q) : is_double (nearest_double x).
Proof. apply representable_is_double, nearest_double_representable. Qed.

(** The nearest integer is at least as near as the integers below and
    above. *)
Lemma round_half_even_nearest (t : Q) :
  Qabs (inject_Z (round_half_even t) - t) <= t - inject_Z (Qfloor t)
  /\ Qabs (inject_Z (round_half_even t) - t) <= inject_Z (Qceiling t) - t.
Proof.
  pose proof (Qfloor_le t) as Hf1. pose proof (Qlt_floor t) as Hf2.
  pose proof (Qle_ceiling t) as Hc1. pose proof (Qceiling_lt t) as Hc2.
  rewrite inject_Z_plus in Hf2. unfold Z.sub in Hc2. rewrite inject_Z_plus in Hc2.
  change (inject_Z 1) with 1 in Hf2. change (inject_Z (- (1))) with (-1 # 1) in Hc2.
  assert (Hcf : Qceiling t = Qfloor t \/ Qceiling t = (Qfloor t + 1)%Z).
  { assert (H1 : inject_Z (Qfloor t) <= inject_Z (Qceiling t)) by lra.
    assert (H2 : inject_Z (Qceiling t) < inject_Z (Qfloor t + 2)).
    { rewrite inject_Z_plus. change (inject_Z 2) with 2. lra. }
    rewrite <- Zle_Qle in H1. rewrite <- Zlt_Qlt in H2. lia. }
  unfold round_half_even.
  destruct (Qcompare_spec (t - inject_Z (Qfloor t)) (1 # 2)) as [Hr|Hr|Hr];
    [destruct (Z.even (Qfloor t))|..];
    rewrite ?inject_Z_plus; change (inject_Z 1) with 1;
    destruct Hcf as [Hcf|Hcf]; rewrite Hcf in *; rewrite ?inject_Z_plus in *;
    change (inject_Z 1) with 1 in *;
    split; apply Qabs_Qle_condition; split; lra.
Qed.

(** No double is nearer to [x] than [nearest_double x]. *)
Theorem nearest_double_is_nearest (x y : Q) :
  is_double y -> Qabs (nearest_double x - x) <= Qabs (y - x).
Proof.
  intros Hy. set (e := exponent x). set (t := x / pow2 e).
  pose proof (pow2_pos e) as He.
  assert (Hx : x == t * pow2 e) by (unfold t; field; lra).
  assert (Hnd : nearest_double x - x == (inject_Z (round_half_even t) - t) * pow2 e).
  { rewrite nearest_double_eq. unfold on_grid. fold e. fold t.
    generalize (inject_Z (round_half_even t)). intros r. unfold t. field. lra. }
  rewrite Hnd, Qabs_Qmult, (Qabs_pos (pow2 e)) by lra.
  destruct (round_half_even_nearest t) as [Hdown Hup].
  unfold is_double in Hy. rewrite nearest_double_eq in Hy. unfold on_grid in Hy.
  set (m := round_half_even (y / pow2 (exponent y))) in Hy. set (j := exponent y) in Hy.
  assert (Hmj : y == inject_Z m * pow2 j) by (by symmetry).
  assert (Hj : (exponent y <= j)%Z) by (unfold j; lia).
  destruct (Qlt_le_dec x y) as [Hlt|Hle].
  - rewrite (Qabs_pos (y - x)) by lra.
    assert (Hyu : on_grid Qceiling x <= y).
    { rewrite <- (on_grid_exact Qceiling Qceiling_resp_le Qceiling_Z y m j) by done.
      apply (on_grid_mono Qceiling Qceiling_resp_le Qceiling_Z). lra. }
    unfold on_grid in Hyu. fold e t in Hyu.
    apply Qle_trans with ((inject_Z (Qceiling t) - t) * pow2 e).
    + apply Qmult_le_compat_r; lra.
    + lra.
  - rewrite (Qabs_neg (y - x)) by lra.
    assert (Hyd : y <= on_grid Qfloor x).
    { rewrite <- (on_grid_exact Qfloor Qfloor_resp_le Qfloor_Z y m j) at 1 by done.
      apply (on_grid_mono Qfloor Qfloor_resp_le Qfloor_Z). lra. }
    unfold on_grid in Hyd. fold e t in Hyd.
    apply Qle_trans with ((t - inject_Z (Qfloor t)) * pow2 e).
    + apply Qmult_le_compat_r; lra.
    + lra.
Qed.

End Numbers_facts.

(** ** NodeScriptLoader *)

Section NodeScriptLoader_strings.
Import NodeScriptLoader.

Lemma list_ascii_of_string_append (a b : string) :
  String.list_ascii_of_string (a +:+ b)
  = String.list_ascii_of_string a ++ String.list_ascii_of_string b.
Proof. induction a as [|c a IH]; simpl; [done | by rewrite IH]. Qed.

Lemma append_length (a b : string) :
  String.length (a +:+ b) = (String.length a + String.length b)%nat.
Proof. induction a as [|c a IH]; simpl; [done | by rewrite IH]. Qed.

Lemma replace_js_at_end_cons (c : ascii) (rest : string) :
  replace_js_at_end (String c rest)
  = if String.eqb (String c rest) ".js" then EmptyString
    else String c (replace_js_at_end rest).
Proof. reflexivity. Qed.

(** A name that ends in [.js] loses exactly that. *)
Lemma replace_js_at_end_stem (stem : string) :
  replace_js_at_end (stem +:+ ".js") = stem.
Proof.
  induction stem as [|c stem IH]; [done|].
  change (String c stem +:+ ".js") with (String c (stem +:+ ".js")).
  rewrite replace_js_at_end_cons.
  destruct (String.eqb_spec (String c (stem +:+ ".js")) ".js") as [Heq|_].
  - apply (f_equal String.length) in Heq. simpl in Heq.
    rewrite append_length in Heq. simpl in Heq. lia.
  - by rewrite IH.
Qed.

(** Any other name is left as it is. *)
Lemma replace_js_at_end_cases (name : string) :
  replace_js_at_end name = name \/ exists stem, name = stem +:+ ".js".
Proof.
  induction name as [|c name IH]; [by left|].
  rewrite replace_js_at_end_cons.
  destruct (String.eqb_spec (String c name) ".js") as [Heq|_].
  - right. exists EmptyString. by rewrite Heq.
  - destruct IH as [IH|[stem ->]].
    + left. by rewrite IH.
    + right. by exists (String c stem).
Qed.

(** The regular expression replacement of the source removes a closing
    [.js] and nothing else. *)
Lemma replace_js_at_end_correct (name : string) :
  replace_js_at_end name = without_js_extension name.
Proof.
  unfold without_js_extension. cbv zeta.
  set (chars := String.list_ascii_of_string name).
  set (n := (length chars - 3)%nat).
  destruct (decide (drop n chars = String.list_ascii_of_string ".js")) as [Hd|Hd].
  - assert (Hname : name = String.string_of_list_ascii (take n chars) +:+ ".js").
    { rewrite <- (String.string_of_list_ascii_of_string name) at 1. fold chars.
      rewrite <- (take_drop n chars) at 1. rewrite Hd.
      rewrite <- (String.string_of_list_ascii_of_string
                    (String.string_of_list_ascii (take n chars) +:+ ".js")).
      by rewrite list_ascii_of_string_append, String.list_ascii_of_string_of_list_ascii. }
    rewrite Hname at 1. apply replace_js_at_end_stem.
  - destruct (replace_js_at_end_cases name) as [Hsame|[stem Hstem]]; [done|].
    exfalso. apply Hd. subst n chars. rewrite Hstem, list_ascii_of_string_append.
    rewrite length_app. simpl length.
    replace (length (String.list_ascii_of_string stem) + 3 - 3)%nat
      with (length (String.list_ascii_of_string stem)) by lia.
    by rewrite drop_app_length.
Qed.

Lemma split_nonempty (sep : ascii) (s : string) : split sep s <> [].
Proof.
  induction s as [|c s IH]; simpl; [done|].
  destruct (Ascii.eqb c sep); [done|]. by destruct (split sep s).
Qed.

(** [pieces[1]] of a locator [node|name] is [name] up to its first [|]. *)
Lemma native_name_node (name : string) :
  native_name ("node|" +:+ name) = hd EmptyString (split "|" name).
Proof.
  unfold native_name.
  change ("node|" +:+ name)
    with (String "n" (String "o" (String "d" (String "e" (String "|" name))))).
  cbn [split Ascii.eqb Bool.eqb nth].
  by destruct (split "|" name).
Qed.

Lemma prefix_node (name : string) : String.prefix "node|" ("node|" +:+ name) = true.
Proof.
  change ("node|" +:+ name)
    with (String "n" (String "o" (String "d" (String "e" (String "|" name))))).
  by destruct name.
Qed.

Lemma split_no_separator (sep : ascii) (s : string) :
  (forall c, c ∈ String.list_ascii_of_string s -> c <> sep) ->
  split sep s = [s].
Proof.
  induction s as [|c s IH]; intros Hfree; [done|].
  simpl. destruct (Ascii.eqb_spec c sep) as [->|_].
  - exfalso. apply (Hfree sep); [simpl; left | done].
  - rewrite IH; [done|]. intros c' Hc'. apply Hfree. simpl. by right.
Qed.

(** For a name without [|], the name given to [nodeRequire] is the whole
    of what follows [node|]. *)
Lemma native_name_plain (name : string) :
  (forall c, c ∈ String.list_ascii_of_string name -> c <> "|"%char) ->
  native_name ("node|" +:+ name) = name.
Proof. intros Hfree. by rewrite native_name_node, split_no_separator. Qed.

End NodeScriptLoader_strings.

Section NodeScriptLoader_facts.
Import NodeScriptLoader.
Context {Err Buffer Value : Type}.
Implicit Types (host : Host Err Buffer Value) (opts : Options).
Implicit Types (script : INodeVMScript Buffer) (t pre post : list (Event Err Buffer Value)).

(** The trace of a load that goes through the cache: the two reads, the
    evaluation between its two recorder events, the success callback,
    and then the aftermath decided by the compiled script. *)
Lemma load_cached host opts (scriptSrc dir : string) (data : list N) :
  String.prefix "node|" scriptSrc = false ->
  configured_dir opts = Some dir ->
  readFile_utf8 (_fs host) (fileUriToFilePath host scriptSrc) = inr data ->
  exists c o v d,
    load host opts scriptSrc
    = [EReadFile (fileUriToFilePath host scriptSrc) (Some "utf8");
       EReadFile (_getCachedDataPath host dir (fileUriToFilePath host scriptSrc)) None;
       ERecord NodeBeginEvaluatingScript (fileUriToFilePath host scriptSrc);
       ERunScript c o v d;
       ERecord NodeEndEvaluatingScript (fileUriToFilePath host scriptSrc);
       ECallback]
      ++ aftermath host opts (_getCachedDataPath host dir (fileUriToFilePath host scriptSrc))
           (Script (_vm host) c o).
Proof.
  intros Hform Hdir Hread. unfold load. rewrite Hform. cbv zeta. rewrite Hread.
  unfold onSourceRead. rewrite Hdir.
  unfold onCachedDataRead, _loadAndEvalScript. cbv zeta. simpl.
  by eexists _, _, _, _.
Qed.

(** What the aftermath schedules, performs and reports, by the flags. *)
Lemma aftermath_rejected host opts (path : string) script :
  cachedDataRejected script = true ->
  scheduled (aftermath host opts path script) = [TUnlink path]
  /\ performed (aftermath host opts path script) = [TUnlink path]
  /\ hd_error (reports (aftermath host opts path script))
     = Some ("cachedDataRejected", path, None)
  /\ forallb is_cache_action (aftermath host opts path script) = true.
Proof.
  intros Hr. unfold aftermath. rewrite Hr. simpl.
  by destruct (unlink (_fs host) path).
Qed.

Lemma aftermath_produced host opts (path : string) script :
  cachedDataRejected script = false ->
  cachedDataProduced script = true ->
  scheduled (aftermath host opts path script) = [TWriteFile path (script_cachedData script)]
  /\ performed (aftermath host opts path script) = [TWriteFile path (script_cachedData script)]
  /\ Forall (fun r => r.1.1 <> "cachedDataRejected") (reports (aftermath host opts path script))
  /\ forallb is_cache_action (aftermath host opts path script) = true.
Proof.
  intros Hr Hp. unfold aftermath. rewrite Hr, Hp. simpl.
  destruct (writeFile (_fs host) path (script_cachedData script)); simpl;
    split_and!; try done; repeat constructor; done.
Qed.

Lemma aftermath_accepted host opts (path : string) script :
  cachedDataRejected script = false ->
  cachedDataProduced script = false ->
  aftermath host opts path script = [].
Proof. intros Hr Hp. unfold aftermath. by rewrite Hr, Hp. Qed.

Lemma aftermath_cache_only host opts (path : string) script :
  forallb is_cache_action (aftermath host opts path script) = true.
Proof.
  destruct (cachedDataRejected script) eqn:Hr.
  - by apply aftermath_rejected.
  - destruct (cachedDataProduced script) eqn:Hp.
    + by apply aftermath_produced.
    + by rewrite aftermath_accepted.
Qed.

(** Case analysis on the membership of an event in an explicit trace. *)
Ltac pick_event :=
  repeat match goal with
         | H : _ \/ _ |- _ => destruct H
         | H : False |- _ => destruct H
         | H : @eq (Event _ _ _) _ _ |- _ => first [discriminate H | inversion H; clear H; subst]
         end.

(** A failed [unlink] or [writeFile] of the aftermath is reported to
    [onNodeCachedDataError] with its error. *)
Lemma aftermath_failures_reported host opts (path : string) script :
  (forall p err, In (EUnlink p) (aftermath host opts path script) ->
     unlink (_fs host) p = Some err ->
     In (EOnNodeCachedDataError "unlink" p (Some err)) (aftermath host opts path script))
  /\ (forall p b err, In (EWriteFile p b) (aftermath host opts path script) ->
        writeFile (_fs host) p b = Some err ->
        In (EOnNodeCachedDataError "writeFile" p (Some err))
           (aftermath host opts path script)).
Proof.
  unfold aftermath, onTimeout, _runSoon. split.
  - intros p err Hin Hfail.
    destruct (cachedDataRejected script); [|destruct (cachedDataProduced script)].
    + cbn [app] in *.
      destruct (unlink (_fs host) path) as [e|] eqn:Hu; simpl in Hin; pick_event;
        rewrite Hfail in Hu; [|done]. injection Hu as <-. simpl. tauto.
    + cbn [app] in *.
      destruct (writeFile (_fs host) path (script_cachedData script));
        simpl in Hin; pick_event.
    + destruct Hin.
  - intros p b err Hin Hfail.
    destruct (cachedDataRejected script); [|destruct (cachedDataProduced script)].
    + cbn [app] in *. destruct (unlink (_fs host) path); simpl in Hin; pick_event.
    + cbn [app] in *.
      destruct (writeFile (_fs host) path (script_cachedData script)) as [e|] eqn:Hw;
        simpl in Hin; pick_event; rewrite Hfail in Hw; [|done].
      injection Hw as <-. simpl. tauto.
    + destruct Hin.
Qed.

Lemma cache_actions_are_not_caller_events t :
  forallb is_cache_action t = true -> List.filter is_caller_event t = [].
Proof.
  induction t as [|e t IH]; [done|]. simpl. intros [He Ht]%andb_prop.
  rewrite (IH Ht). by destruct e.
Qed.

(** C4: on the cached path the success callback is called once, after the
    script was evaluated and before anything is done to the cache: what
    precedes the call holds the evaluation and neither a cache action nor
    a call of the caller; what follows holds cache actions only, so the
    failure callback is never called; and a failed [unlink] or
    [writeFile] is reported to [onNodeCachedDataError]. *)
Theorem C4_success_reported_before_cache_maintenance
    host opts (scriptSrc dir : string) (data : list N) :
  String.prefix "node|" scriptSrc = false ->
  configured_dir opts = Some dir ->
  readFile_utf8 (_fs host) (fileUriToFilePath host scriptSrc) = inr data ->
  exists pre post,
    load host opts scriptSrc = pre ++ ECallback :: post
    /\ existsb is_evaluation pre = true
    /\ forallb (fun e => negb (is_cache_action e) && negb (is_caller_event e)) pre = true
    /\ forallb is_cache_action post = true
    /\ List.filter is_caller_event (load host opts scriptSrc) = [ECallback]
    /\ (forall p err, In (EUnlink p) post ->
          unlink (_fs host) p = Some err ->
          In (EOnNodeCachedDataError "unlink" p (Some err)) post)
    /\ (forall p b err, In (EWriteFile p b) post ->
          writeFile (_fs host) p b = Some err ->
          In (EOnNodeCachedDataError "writeFile" p (Some err)) post).
Proof.
  intros Hform Hdir Hread.
  destruct (load_cached host opts scriptSrc dir data Hform Hdir Hread) as (c & o & v & d & ->).
  set (file := fileUriToFilePath host scriptSrc).
  set (path := _getCachedDataPath host dir file).
  set (script := Script (_vm host) c o).
  exists [EReadFile file (Some "utf8"); EReadFile path None;
          ERecord NodeBeginEvaluatingScript file; ERunScript c o v d;
          ERecord NodeEndEvaluatingScript file],
         (aftermath host opts path script).
  pose proof (aftermath_cache_only host opts path script) as Hpost.
  destruct (aftermath_failures_reported host opts path script) as [Hunlink Hwrite].
  split_and!; try done.
  simpl. by rewrite (cache_actions_are_not_caller_events _ Hpost).
Qed.

(** C5: with a cache directory, what is done to the cache after the
    evaluation follows the flags of the compiled script.  Rejected: the
    first report to [onNodeCachedDataError] is [cachedDataRejected] with
    the path of the cache file, and the one thing scheduled, and later
    done, is the [unlink] of that file.  Otherwise, produced: the one
    thing scheduled, and later done, is the [writeFile] of the fresh data
    to that file, and no rejection is reported.  Neither: nothing is
    scheduled, nothing is written or deleted, nothing is reported. *)
Theorem C5_cache_action_follows_script_flags
    host opts (scriptSrc dir : string) (data : list N) :
  String.prefix "node|" scriptSrc = false ->
  configured_dir opts = Some dir ->
  readFile_utf8 (_fs host) (fileUriToFilePath host scriptSrc) = inr data ->
  exists c o v d,
    In (ERunScript c o v d) (load host opts scriptSrc)
    /\ let script := Script (_vm host) c o in
       let path := _getCachedDataPath host dir (fileUriToFilePath host scriptSrc) in
       let t := load host opts scriptSrc in
       if cachedDataRejected script then
         hd_error (reports t) = Some ("cachedDataRejected", path, None)
         /\ scheduled t = [TUnlink path]
         /\ performed t = [TUnlink path]
       else if cachedDataProduced script then
         scheduled t = [TWriteFile path (script_cachedData script)]
         /\ performed t = [TWriteFile path (script_cachedData script)]
         /\ Forall (fun r => r.1.1 <> "cachedDataRejected") (reports t)
       else
         scheduled t = [] /\ performed t = [] /\ reports t = [].
Proof.
  intros Hform Hdir Hread.
  destruct (load_cached host opts scriptSrc dir data Hform Hdir Hread)
    as (c & o & v & d & Hload).
  exists c, o, v, d. rewrite Hload. split; [simpl; tauto|]. cbv zeta.
  set (path := _getCachedDataPath host dir (fileUriToFilePath host scriptSrc)).
  set (script := Script (_vm host) c o).
  unfold scheduled, performed, reports. cbn [app omap list_omap].
  destruct (cachedDataRejected script) eqn:Hr.
  - destruct (aftermath_rejected host opts path script Hr) as (Hs & Hp & Hrep & _).
    by split_and!.
  - destruct (cachedDataProduced script) eqn:Hp.
    + destruct (aftermath_produced host opts path script Hr Hp) as (Hs & Hpf & Hrep & _).
      by split_and!.
    + by rewrite (aftermath_accepted host opts path script Hr Hp).
Qed.

(** C6, as the code has it: for every positive minimum delay [d], a
    double up to [2^1022], and every jitter in [0, 1), the delay handed
    to [setTimeout] is at least [d] and at most the double nearest to
    [d] plus [d] rounded up; for a whole number [d] that is the closed
    interval from [d] to [2 d]. *)
Theorem C6_runSoon_delay_within_closed_interval
    host (task : Task Buffer) (d : Q) :
  Numbers.is_double d -> (0 < d)%Q -> (d <= Numbers.pow2 1022)%Q ->
  (0 <= Math_random host)%Q -> (Math_random host < 1)%Q ->
  exists timeout : Q,
    _runSoon host task d = ESetTimeout task timeout
    /\ (d <= timeout)%Q
    /\ (timeout <= Numbers.nearest_double (d + inject_Z (Qceiling d)))%Q
    /\ forall n : Z, (d == inject_Z n)%Q -> (timeout <= 2 * d)%Q.
Proof.
  intros Hdbl Hd _ Hr0 Hr1. exists (_runSoon_timeout_double (Math_random host) d).
  split; [done|].
  unfold _runSoon_timeout_double, Numbers.add, Numbers.multiply, Numbers.Math_ceil.
  unfold Numbers.is_double in Hdbl.
  set (r := Math_random host) in *. set (p := Numbers.nearest_double (r * d)).
  assert (Hlo : (0 <= r * d)%Q) by (apply Qmult_le_0_compat; lra).
  assert (Hhi : (r * d <= d)%Q).
  { rewrite <- (Qmult_1_l d) at 2. apply Qmult_le_compat_r; lra. }
  assert (Hp0 : (0 <= p)%Q).
  { apply Qle_trans with (Numbers.nearest_double 0); [by rewrite nearest_double_0|].
    by apply nearest_double_mono. }
  assert (Hp1 : (p <= d)%Q).
  { apply Qle_trans with (Numbers.nearest_double d); [by apply nearest_double_mono|].
    rewrite Hdbl. apply Qle_refl. }
  assert (Hc0 : (0 <= inject_Z (Qceiling p))%Q).
  { change 0%Q with (inject_Z 0). rewrite <- Zle_Qle.
    change 0%Z with (Qceiling 0). by apply Qceiling_resp_le. }
  assert (Hc1 : (inject_Z (Qceiling p) <= inject_Z (Qceiling d))%Q).
  { rewrite <- Zle_Qle. by apply Qceiling_resp_le. }
  split_and!.
  - apply Qle_trans with (Numbers.nearest_double d); [rewrite Hdbl; apply Qle_refl|].
    apply nearest_double_mono. lra.
  - apply nearest_double_mono. lra.
  - intros n Hn. apply Qle_trans with (Numbers.nearest_double (2 * d)).
    + apply nearest_double_mono.
      rewrite (Qceiling_comp d (inject_Z n) Hn), Qceiling_Z, <- Hn in Hc1. lra.
    + pose proof (is_double_twice d Hdbl) as H2. unfold Numbers.is_double in H2.
      rewrite H2. apply Qle_refl.
Qed.

(** C7, as the code has it: only the first code unit is looked at.  For a
    text that does not itself begin with U+FEFF, wrapping it with a
    leading U+FEFF and wrapping it as it is give the same result: the
    prefix, the text, a line feed and the closing of the function. *)
Theorem C7_one_leading_BOM_is_dropped (text : list N) :
  head text <> Some _BOM ->
  contents (_BOM :: text)
  = units "(function (require, define, __filename, __dirname) { " ++ text ++ 10%N :: units "});"
  /\ contents text
     = units "(function (require, define, __filename, __dirname) { " ++ text ++ 10%N :: units "});".
Proof.
  intros Hhead. split; [reflexivity|].
  destruct text as [|c rest]; [reflexivity|].
  unfold contents. destruct (N.eqb_spec c _BOM) as [->|_]; [by destruct Hhead | reflexivity].
Qed.

(** C8: for a locator [node|name], [load] resolves [name] (up to its
    first [|]) with [nodeRequire].  When that throws, the failure callback
    is called with the error and nothing else happens: no success
    callback, no module definition.  When it returns, an anonymous module
    without dependencies whose factory gives the exports is enqueued, and
    then the success callback is called. *)
Theorem C8_native_module_form host opts (name : string) :
  load host opts ("node|" +:+ name)
  = match nodeRequire host (hd EmptyString (split "|" name)) with
    | inl err => [EErrorback err]
    | inr moduleExports => [EEnqueueDefineAnonymousModule [] moduleExports; ECallback]
    end.
Proof. unfold load. by rewrite prefix_node, native_name_node. Qed.

(** C9: the path of the cache file of [filename] under [baseDir] is
    [join(baseDir, h-b.code)] with [h] the hexadecimal MD5 digest of
    [filename] and [b] its base name without a closing [.js]. *)
Theorem C9_cached_data_path host (baseDir filename : string) :
  _getCachedDataPath host baseDir filename
  = join (_path host)
      [baseDir;
       createHash (_crypto host) "md5" filename +:+ "-"
       +:+ without_js_extension (basename (_path host) filename) +:+ ".code"].
Proof. unfold _getCachedDataPath. by rewrite replace_js_at_end_correct. Qed.

End NodeScriptLoader_facts.

Section NodeScriptLoader_examples.
Import NodeScriptLoader Samples.

(** A cold cache and a file system that refuses the write. *)
Lemma C4_witness :
  (String.prefix "node|" "/src/main.js" = false
   /\ configured_dir cached_options = Some "/cache"
   /\ readFile_utf8 (_fs cold_host) (fileUriToFilePath cold_host "/src/main.js")
      = inr (units "console.log(1)"))
  /\ exists pre post,
       load cold_host cached_options "/src/main.js" = pre ++ ECallback :: post
       /\ existsb is_evaluation pre = true
       /\ forallb (fun e => negb (is_cache_action e) && negb (is_caller_event e)) pre = true
       /\ forallb is_cache_action post = true
       /\ List.filter is_caller_event (load cold_host cached_options "/src/main.js")
          = [ECallback]
       /\ (forall p err, In (EUnlink p) post ->
             unlink (_fs cold_host) p = Some err ->
             In (EOnNodeCachedDataError "unlink" p (Some err)) post)
       /\ (forall p b err, In (EWriteFile p b) post ->
             writeFile (_fs cold_host) p b = Some err ->
             In (EOnNodeCachedDataError "writeFile" p (Some err)) post).
Proof.
  split; [by split_and!|].
  apply (C4_success_reported_before_cache_maintenance
           cold_host cached_options "/src/main.js" "/cache" (units "console.log(1)"));
    reflexivity.
Defined.

(** The whole trace of the sample: the refused write is reported to the
    hook after the success callback, and to nobody else. *)
Example cold_cache_sample :
  drop 5 (load cold_host cached_options "/src/main.js")
  = [ECallback;
     ESetTimeout (TWriteFile "/cache/0cc175b9-main.code" [1%N; 2%N; 3%N]) 20;
     EWriteFile "/cache/0cc175b9-main.code" [1%N; 2%N; 3%N];
     EOnNodeCachedDataError "writeFile" "/cache/0cc175b9-main.code" (Some "EACCES")].
Proof. reflexivity. Qed.

(** On the cold cache the script produces data: a write is scheduled. *)
(** A rejected cache file: the rejection is reported, the file is deleted
    later, and the failed deletion is reported as well, all after the
    success callback. *)
Example stale_cache_sample :
  drop 5 (load stale_host cached_options "/src/main.js")
  = [ECallback;
     EOnNodeCachedDataError "cachedDataRejected" "/cache/0cc175b9-main.code" None;
     ESetTimeout (TUnlink "/cache/0cc175b9-main.code") 13;
     EUnlink "/cache/0cc175b9-main.code";
     EOnNodeCachedDataError "unlink" "/cache/0cc175b9-main.code" (Some "EBUSY")].
Proof. reflexivity. Qed.

(** Inside the renderer the script is compiled under a file URI. *)
Example renderer_script_name :
  vmScriptSrc_of stale_host "c:\src\main.js" = "file:///C:/src/main.js"
  /\ vmScriptSrc_of cold_host "c:\src\main.js" = "c:\src\main.js".
Proof. split; reflexivity. Qed.

(** The name given to the compiler ends before a line terminator, also
    before the line separator U+2028. *)
Example renderer_script_name_ends_at_a_line_terminator :
  vmScriptSrc_of stale_host
    ("c:\src" +:+ String "226" (String "128" (String "168" "main.js")))
  = "file:///C:/src"
  /\ vmScriptSrc_of stale_host ("c:\src" +:+ String "013" "main.js") = "file:///C:/src".
Proof. split; reflexivity. Qed.

Lemma C5_witness :
  (String.prefix "node|" "/src/main.js" = false
   /\ configured_dir cached_options = Some "/cache"
   /\ readFile_utf8 (_fs cold_host) (fileUriToFilePath cold_host "/src/main.js")
      = inr (units "console.log(1)"))
  /\ exists c o v d,
       In (ERunScript c o v d) (load cold_host cached_options "/src/main.js")
       /\ let script := Script (_vm cold_host) c o in
          let path :=
            _getCachedDataPath cold_host "/cache" (fileUriToFilePath cold_host "/src/main.js") in
          let t := load cold_host cached_options "/src/main.js" in
          if cachedDataRejected script then
            hd_error (reports t) = Some ("cachedDataRejected", path, None)
            /\ scheduled t = [TUnlink path]
            /\ performed t = [TUnlink path]
          else if cachedDataProduced script then
            scheduled t = [TWriteFile path (script_cachedData script)]
            /\ performed t = [TWriteFile path (script_cachedData script)]
            /\ Forall (fun r => r.1.1 <> "cachedDataRejected") (reports t)
          else
            scheduled t = [] /\ performed t = [] /\ reports t = [].
Proof.
  split; [by split_and!|].
  apply (C5_cache_action_follows_script_flags
           cold_host cached_options "/src/main.js" "/cache" (units "console.log(1)"));
    reflexivity.
Defined.

(** C6 as stated fails: with a delay of 10 and a jitter of 0.95 the
    product is 9.5, rounded up to 10, and the delay handed to
    [setTimeout] is 20, which is not below twice 10; the same with the
    double nearest to 0.95 for the jitter.  And with a delay and a
    jitter of one half the delay handed over is one and a half, more
    than twice the delay. *)
Lemma C6_counterexample :
  (Numbers.is_double 10 /\ (0 < 10)%Q
   /\ (0 <= Math_random cold_host)%Q /\ (Math_random cold_host < 1)%Q
   /\ _runSoon cold_host (TUnlink "/cache/0cc175b9-main.code") 10
      = ESetTimeout (TUnlink "/cache/0cc175b9-main.code") 20
   /\ ~ (20 < 2 * 10)%Q)
  /\ ((_runSoon_timeout_double (Numbers.nearest_double (19 # 20)) 10 = 20)%Q
      /\ (0 <= Numbers.nearest_double (19 # 20))%Q
      /\ (Numbers.nearest_double (19 # 20) < 1)%Q)
  /\ (Numbers.is_double (1 # 2)
      /\ (_runSoon_timeout_double (1 # 2) (1 # 2) = 3 # 2)%Q
      /\ ~ (3 # 2 <= 2 * (1 # 2))%Q).
Proof.
  split_and!; try (vm_compute; reflexivity); try (by intros ?).
  all: vm_compute; by intros ?.
Qed.

(** A delay of 10 with a jitter of 0.95. *)
Lemma C6_witness :
  (Numbers.is_double 10 /\ (0 < 10)%Q /\ (10 <= Numbers.pow2 1022)%Q
   /\ (0 <= Math_random cold_host)%Q /\ (Math_random cold_host < 1)%Q)
  /\ exists timeout : Q,
       _runSoon cold_host (TUnlink "/cache/0cc175b9-main.code") 10
       = ESetTimeout (TUnlink "/cache/0cc175b9-main.code") timeout
       /\ (10 <= timeout)%Q
       /\ (timeout <= Numbers.nearest_double (10 + inject_Z (Qceiling 10)))%Q
       /\ forall n : Z, (10 == inject_Z n)%Q -> (timeout <= 2 * 10)%Q.
Proof.
  assert (Hrange : (10 <= Numbers.pow2 1022)%Q) by (apply Qle_bool_iff; vm_compute; reflexivity).
  split; [split_and!; [vm_compute; reflexivity | reflexivity | exact Hrange
                      | unfold Qle; simpl; lia | reflexivity]|].
  apply (C6_runSoon_delay_within_closed_interval
           cold_host (TUnlink "/cache/0cc175b9-main.code") 10);
    [vm_compute; reflexivity | reflexivity | exact Hrange
    | unfold Qle; simpl; lia | reflexivity].
Defined.

(** C7 as stated fails on a text with two leading marks: wrapping it
    keeps the second mark, wrapping the text without its first mark drops
    that one as well. *)
Lemma C7_counterexample :
  contents (_BOM :: _BOM :: units "x") = prefix ++ (_BOM :: units "x") ++ suffix
  /\ contents (_BOM :: units "x") = prefix ++ units "x" ++ suffix
  /\ contents (_BOM :: _BOM :: units "x") <> contents (_BOM :: units "x").
Proof. split_and!; [reflexivity | reflexivity | by intros ?]. Qed.

(** The text [console.log(1)] with and without the mark. *)
Lemma C7_witness :
  head (units "console.log(1)") <> Some _BOM
  /\ contents (_BOM :: units "console.log(1)")
     = units "(function (require, define, __filename, __dirname) { "
       ++ units "console.log(1)" ++ 10%N :: units "});"
  /\ contents (units "console.log(1)")
     = units "(function (require, define, __filename, __dirname) { "
       ++ units "console.log(1)" ++ 10%N :: units "});".
Proof.
  split; [by intros ?|].
  apply (C7_one_leading_BOM_is_dropped (units "console.log(1)")). by intros ?.
Defined.

(** The two native-module cases on the sample host. *)
Example native_module_missing :
  load cold_host cached_options "node|nonexistent-module"
  = [EErrorback "Cannot find module"].
Proof. reflexivity. Qed.

Example native_module_found :
  load cold_host cached_options "node|fs"
  = [EEnqueueDefineAnonymousModule [] "exports of fs"; ECallback].
Proof. reflexivity. Qed.

Example cached_data_path_sample :
  _getCachedDataPath cold_host "/cache" "/src/main.js" = "/cache/0cc175b9-main.code".
Proof. reflexivity. Qed.

End NodeScriptLoader_examples.

(** * Further properties *)

(** ** OnlyOnceScriptLoader: sessions *)

Section OnlyOnceSessions_facts.
Import OnlyOnceScriptLoader OnlyOnceSessions.
Context {Err : Type}.
Implicit Types (s : State Err) (c : Completion Err) (t d : list (Event Err)).
Implicit Types (rs : list Request) (q cbs more : list IScriptCallbacks).
Implicit Types (ops : list (Op Err)) (o : option (list IScriptCallbacks)).
Implicit Types (realm : Realm).


Lemma extend_nonempty o more q :
  (forall q0, o = Some q0 -> q0 <> []) -> extend o more = Some q -> q <> [].
Proof.
  destruct o as [q0|]; simpl.
  - intros Hq0 [= <-] Happ. apply app_eq_nil in Happ as [-> _]. by apply (Hq0 []).
  - destruct more; [done|]. by intros _ [= <-].
Qed.

Lemma returned_Some (out : Outcome Err) s : returned out = Some s -> out = Returned s.
Proof. destruct out; simpl; by intros [= <-]. Qed.






Lemma load_entries_nonempty (src : string) (cb eb : Handler) s s' :
  load src cb eb s = Returned s' -> entries_nonempty s -> entries_nonempty s'.
Proof.
  unfold load. destruct (callbackMap s !! "hasOwnProperty"); [done|].
  destruct (callbackMap s !! src) as [q0|] eqn:Hsrc; intros [= <-] Hs L q; simpl.
  - destruct (decide (src = L)) as [->|Hne].
    + rewrite lookup_insert_eq. intros [= <-]. by destruct q0.
    + rewrite lookup_insert_ne by done. apply Hs.
  - destruct (bool_decide (src = "__proto__")); simpl; [apply Hs|].
    destruct (decide (src = L)) as [->|Hne].
    + rewrite lookup_insert_eq. by intros [= <-].
    + rewrite lookup_insert_ne by done. apply Hs.
Qed.

Lemma perform_all_entries_nonempty rs s s' :
  perform_all rs s = Returned s' -> entries_nonempty s -> entries_nonempty s'.
Proof.
  revert s. induction rs as [|[src cb eb] rs IH]; intros s; cbn [perform_all perform].
  - by intros [= <-].
  - destruct (load src cb eb s) as [s1|s1] eqn:Hload; [|done]. cbn [and_then].
    intros Hrest Hs. apply (IH s1 Hrest). by eapply load_entries_nonempty.
Qed.

Lemma notify_entries_nonempty c q s s' :
  notify c q s = Returned s' -> entries_nonempty s -> entries_nonempty s'.
Proof.
  revert s. induction q as [|sc q IH]; intros s.
  - by intros [= <-].
  - rewrite notify_cons.
    destruct (invoke (call_event c) (chosen c sc) s) as [s1|s1] eqn:Hinv; [|done].
    cbn [and_then]. intros Hrest Hs. apply (IH s1 Hrest).
    unfold invoke in Hinv. by eapply perform_all_entries_nonempty.
Qed.

Lemma step_entries_nonempty realm s op s' :
  step realm s op = Some s' -> entries_nonempty s -> entries_nonempty s'.
Proof.
  intros Hstep Hs. destruct op as [src cb eb|K c]; simpl in Hstep;
    apply returned_Some in Hstep.
  - by eapply load_entries_nonempty.
  - destruct (complete_Returned realm K c s s' Hstep) as (q & Hn & _).
    apply (notify_entries_nonempty c q _ s' Hn).
    intros L q'. simpl. destruct (decide (K = L)) as [->|Hne].
    + by rewrite lookup_delete_eq.
    + rewrite lookup_delete_ne by done. apply Hs.
Qed.

(** An entry of the map is never an empty queue: whenever a locator is
    pending in a session of a new loader, at least one caller waits. *)
Theorem pending_entries_hold_a_caller realm (L : string) ops s q :
  run realm ops create = Some s -> callbackMap s !! L = Some q -> q <> [].
Proof.
  intros Hrun. revert L q. change (entries_nonempty s).
  assert (Hgen : forall s0, entries_nonempty s0 -> run realm ops s0 = Some s ->
                   entries_nonempty s).
  { clear Hrun. induction ops as [|op ops IH]; intros s0 Hs0; simpl.
    - by intros [= <-].
    - destruct (step realm s0 op) as [s1|] eqn:Hstep; [|done].
      apply IH. by eapply step_entries_nonempty. }
  apply (Hgen create); [|done]. intros L q. simpl. by rewrite lookup_empty.
Qed.



Lemma waiting_pairs_delete (m : gmap string (list IScriptCallbacks)) (k : string) q :
  m !! k = Some q -> waiting_pairs m ≡ₚ q ++ waiting_pairs (delete k m).
Proof.
  intros Hk. unfold waiting_pairs.
  rewrite <- (map_to_list_delete m k q Hk). by rewrite fmap_cons.
Qed.

Lemma waiting_pairs_insert (m : gmap string (list IScriptCallbacks)) (k : string) q :
  waiting_pairs (<[k := q]> m) ≡ₚ q ++ waiting_pairs (delete k m).
Proof.
  rewrite <- insert_delete_eq. unfold waiting_pairs.
  rewrite map_to_list_insert by apply lookup_delete_eq. by rewrite fmap_cons.
Qed.

Lemma plain_reentrant c q : forallb plain_pair q = true -> reentrant c q = [].
Proof.
  induction q as [|sc q IH]; [done|].
  cbn [forallb]. intros [Hsc Hq]%andb_prop.
  change (reentrant c (sc :: q)) with (handler_body (chosen c sc) ++ reentrant c q).
  rewrite (IH Hq), app_nil_r.
  apply andb_prop in Hsc as [Hcb Heb]. unfold reenters in *.
  destruct c; simpl.
  - by destruct (handler_body (callback sc)).
  - by destruct (handler_body (errorback sc)).
Qed.

(** Handlers that do not call [load] are called and nothing else
    happens. *)
Lemma notify_plain c q s :
  forallb plain_pair q = true ->
  exists s', notify c q s = Returned s'
    /\ callbackMap s' = callbackMap s
    /\ prototype s' = prototype s
    /\ trace s' = trace s ++ (notification c <$> q).
Proof.
  revert s. induction q as [|sc q IH]; intros s.
  - intros _. exists s. simpl. by rewrite app_nil_r.
  - cbn [forallb]. intros [Hsc Hq]%andb_prop. rewrite notify_cons. unfold invoke.
    assert (Hbody : handler_body (chosen c sc) = []).
    { apply andb_prop in Hsc as [Hcb Heb]. unfold reenters in *. destruct c; simpl.
      - by destruct (handler_body (callback sc)).
      - by destruct (handler_body (errorback sc)). }
    rewrite Hbody. cbn [perform_all and_then].
    destruct (IH (emit (call_event c (handler_id (chosen c sc))) s) Hq)
      as (s' & Hn & Hm & Hp & Ht).
    exists s'. split; [done|]. split; [done|]. split; [done|].
    rewrite Ht. simpl. by rewrite <- app_assoc, notification_call_event.
Qed.

Lemma invocations_notification c q :
  invocations (notification c <$> q) = notification c <$> q.
Proof.
  induction q as [|sc q IH]; [done|].
  rewrite fmap_cons. change (notification c sc :: (notification c <$> q))
    with ([notification c sc] ++ (notification c <$> q)).
  rewrite invocations_app, IH. by destruct c.
Qed.

Lemma extend_forallb (P : IScriptCallbacks -> bool) o more q :
  (forall q0, o = Some q0 -> forallb P q0 = true) ->
  forallb P more = true ->
  extend o more = Some q -> forallb P q = true.
Proof.
  destruct o as [q0|]; simpl.
  - intros Hq0 Hmore [= <-]. by rewrite forallb_app, (Hq0 q0 eq_refl), Hmore.
  - destruct more; [done|]. by intros _ Hmore [= <-].
Qed.

Lemma loaded_cons (op : Op Err) ops : loaded (op :: ops) = loaded [op] ++ loaded ops.
Proof. unfold loaded. simpl. by rewrite app_nil_r. Qed.

Lemma step_plain realm s (op : Op Err) s' :
  plain_op op = true -> stores_entry op = true ->
  all_plain s -> prototype s = None ->
  step realm s op = Some s' ->
  all_plain s' /\ prototype s' = None
  /\ exists called : list (Completion Err * IScriptCallbacks),
       invocations (trace s')
       = invocations (trace s) ++ ((fun x => notification x.1 x.2) <$> called)
       /\ (snd <$> called) ++ waiting_pairs (callbackMap s')
          ≡ₚ waiting_pairs (callbackMap s) ++ loaded [op].
Proof.
  intros Hop Hstore Hs Hproto Hstep.
  destruct op as [src cb eb|K c]; simpl in Hstep, Hop, Hstore; apply returned_Some in Hstep.
  - apply negb_true_iff, bool_decide_eq_false_1 in Hstore.
    split; [|split].
    + intros L q' Hq'. unfold load in Hstep.
      destruct (callbackMap s !! "hasOwnProperty"); [done|].
      destruct (callbackMap s !! src) as [q0|] eqn:Hsrc; injection Hstep as <-;
        rewrite ?(bool_decide_eq_false_2 (src = "__proto__")) in Hq' by done;
        simpl in Hq'.
      * destruct (decide (src = L)) as [->|Hne].
        -- rewrite lookup_insert_eq in Hq'. injection Hq' as <-.
           rewrite forallb_app, (Hs L q0 Hsrc). simpl. by rewrite Hop.
        -- rewrite lookup_insert_ne in Hq' by done. by apply (Hs L).
      * destruct (decide (src = L)) as [->|Hne].
        -- rewrite lookup_insert_eq in Hq'. injection Hq' as <-. simpl. by rewrite Hop.
        -- rewrite lookup_insert_ne in Hq' by done. by apply (Hs L).
    + unfold load in Hstep. destruct (callbackMap s !! "hasOwnProperty"); [done|].
      destruct (callbackMap s !! src); injection Hstep as <-;
        rewrite ?(bool_decide_eq_false_2 (src = "__proto__")) by done; done.
    + exists []. unfold load in Hstep. destruct (callbackMap s !! "hasOwnProperty"); [done|].
      destruct (callbackMap s !! src) as [q0|] eqn:Hsrc; injection Hstep as <-;
        rewrite ?(bool_decide_eq_false_2 (src = "__proto__")) by done; simpl.
      * rewrite app_nil_r. split; [done|].
        rewrite waiting_pairs_insert, (waiting_pairs_delete _ src q0 Hsrc).
        rewrite <- !app_assoc. apply Permutation_app_head, Permutation_app_comm.
      * rewrite invocations_app. split; [done|].
        rewrite waiting_pairs_insert, delete_id by done. simpl. apply Permutation_cons_append.
  - destruct (complete_Returned realm K c s s' Hstep) as (q & Hn & Hq).
    assert (Hplain : forallb plain_pair q = true).
    { destruct Hq as [Hq|(_ & [->|[_ Hp]])]; [by apply (Hs K)|done|].
      by rewrite Hproto in Hp. }
    destruct (notify_plain c q (set_callbackMap (delete K (callbackMap s)) s) Hplain)
      as (s1 & Hn1 & Hm & Hp & Ht).
    rewrite Hn in Hn1. injection Hn1 as <-. cbn [callbackMap trace set_callbackMap prototype] in *.
    split; [|split].
    + intros L q' Hq'. rewrite Hm in Hq'.
      destruct (decide (K = L)) as [->|Hne].
      * by rewrite lookup_delete_eq in Hq'.
      * rewrite lookup_delete_ne in Hq' by done. by apply (Hs L).
    + by rewrite Hp.
    + exists ((fun sc => (c, sc)) <$> q). rewrite Ht, invocations_app. split.
      * by rewrite invocations_notification, <- list_fmap_compose.
      * rewrite <- list_fmap_compose, Hm, app_nil_r. unfold compose. simpl.
        rewrite list_fmap_id.
        destruct Hq as [Hq|(Hnone & [->|[_ Hp']])].
        -- by rewrite (waiting_pairs_delete _ K q Hq).
        -- by rewrite delete_id.
        -- by rewrite Hproto in Hp'.
Qed.

(** No pair leaks and none is called twice: in a session of a new loader
    whose handlers do not call [load] themselves and in which no [load]
    is for [__proto__], the pairs called so far, each through one of its
    two callbacks, and the pairs still waiting are together, up to
    order, the pairs handed to [load]. *)
Theorem every_pair_is_called_once_or_waits realm ops s :
  forallb plain_op ops = true ->
  forallb stores_entry ops = true ->
  run realm ops create = Some s ->
  exists called : list (Completion Err * IScriptCallbacks),
    invocations (trace s) = (fun x => notification x.1 x.2) <$> called
    /\ (snd <$> called) ++ waiting_pairs (callbackMap s) ≡ₚ loaded ops.
Proof.
  intros Hplain Hstore Hrun.
  assert (Hgen : forall s0, all_plain s0 -> prototype s0 = None -> run realm ops s0 = Some s ->
            exists called : list (Completion Err * IScriptCallbacks),
              invocations (trace s)
              = invocations (trace s0) ++ ((fun x => notification x.1 x.2) <$> called)
              /\ (snd <$> called) ++ waiting_pairs (callbackMap s)
                 ≡ₚ waiting_pairs (callbackMap s0) ++ loaded ops).
  { clear Hrun. induction ops as [|op ops IH]; intros s0 Hs0 Hp0; cbn [run].
    - intros [= <-]. exists []. simpl. by rewrite !app_nil_r.
    - simpl in Hplain, Hstore.
      apply andb_prop in Hplain as [Hop Hops]. apply andb_prop in Hstore as [Hst Hsts].
      destruct (step realm s0 op) as [s1|] eqn:Hstep; [|done]. intros Hrun.
      destruct (step_plain realm s0 op s1 Hop Hst Hs0 Hp0 Hstep)
        as (Hs1 & Hp1 & called1 & Hi1 & Hw1).
      destruct (IH Hops Hsts s1 Hs1 Hp1 Hrun) as (called2 & Hi2 & Hw2).
      exists (called1 ++ called2). split.
      + by rewrite Hi2, Hi1, fmap_app, app_assoc.
      + rewrite fmap_app, <- app_assoc, Hw2, loaded_cons, !app_assoc.
        by apply Permutation_app_tail. }
  destruct (Hgen create) as (called & Hi & Hw); [|done|done|].
  - intros L q. simpl. by rewrite lookup_empty.
  - exists called. split; [exact Hi|]. rewrite Hw. unfold waiting_pairs. simpl.
    by rewrite map_to_list_empty.
Qed.

Lemma load_keeps_proto_unset (src : string) (cb eb : Handler) s s' :
  load src cb eb s = Returned s' ->
  callbackMap s !! "__proto__" = None -> callbackMap s' !! "__proto__" = None.
Proof.
  unfold load. destruct (callbackMap s !! "hasOwnProperty"); [done|].
  destruct (callbackMap s !! src) as [q0|] eqn:Hsrc; intros [= <-] Hs; simpl.
  - destruct (decide (src = "__proto__")) as [->|Hne]; [by rewrite Hs in Hsrc|].
    by rewrite lookup_insert_ne.
  - destruct (bool_decide (src = "__proto__")) eqn:Hb; simpl; [done|].
    apply bool_decide_eq_false_1 in Hb. by rewrite lookup_insert_ne.
Qed.

Lemma actual_loads_notification (L : string) c q :
  actual_loads L (notification c <$> q) = 0.
Proof.
  induction q as [|sc q IH]; [done|].
  rewrite fmap_cons. change (notification c sc :: (notification c <$> q))
    with ([notification c sc] ++ (notification c <$> q)).
  rewrite actual_loads_app, IH. by destruct c.
Qed.

(** The pair in front of the prototype chain, if any, is made of
    handlers that do not call [load]. *)
Lemma step_plain_prototype realm s (op : Op Err) s' :
  plain_op op = true ->
  all_plain s ->
  (forall a, prototype s = Some a -> forallb plain_pair a = true) ->
  callbackMap s !! "__proto__" = None ->
  step realm s op = Some s' ->
  all_plain s'
  /\ (forall a, prototype s' = Some a -> forallb plain_pair a = true)
  /\ callbackMap s' !! "__proto__" = None
  /\ actual_loads "__proto__" (trace s')
     = actual_loads "__proto__" (trace s) + (if is_load_of "__proto__" op then 1 else 0).
Proof.
  intros Hop Hs Hp Hown Hstep. destruct op as [src cb eb|K c]; simpl in Hstep, Hop;
    apply returned_Some in Hstep.
  - pose proof (load_keeps_proto_unset src cb eb s s' Hstep Hown) as Hown'.
    unfold load in Hstep. destruct (callbackMap s !! "hasOwnProperty"); [done|].
    destruct (decide (src = "__proto__")) as [->|Hne].
    + rewrite Hown, (bool_decide_eq_true_2 ("__proto__" = "__proto__")) in Hstep by done.
      injection Hstep as <-. simpl. split; [done|]. split.
      * intros a [= <-]. simpl. by rewrite Hop.
      * split; [done|]. by rewrite actual_loads_app.
    + rewrite (bool_decide_eq_false_2 (src = "__proto__")) in Hstep by done.
      cbn [is_load_of]. rewrite (bool_decide_eq_false_2 (src = "__proto__")) by done.
      destruct (callbackMap s !! src) as [q0|] eqn:Hsrc; injection Hstep as <-; simpl.
      * split; [|by rewrite Nat.add_0_r].
        intros L q'. simpl. destruct (decide (src = L)) as [->|HL].
        -- rewrite lookup_insert_eq. intros [= <-].
           rewrite forallb_app, (Hs L q0 Hsrc). simpl. by rewrite Hop.
        -- rewrite lookup_insert_ne by done. apply (Hs L).
      * split; [|split; [done|split; [by rewrite lookup_insert_ne|]]].
        -- intros L q'. simpl. destruct (decide (src = L)) as [->|HL].
           ++ rewrite lookup_insert_eq. intros [= <-]. simpl. by rewrite Hop.
           ++ rewrite lookup_insert_ne by done. apply (Hs L).
        -- rewrite actual_loads_app. unfold actual_loads at 2. simpl.
           by rewrite (bool_decide_eq_false_2 (src = "__proto__")).
  - destruct (complete_Returned realm K c s s' Hstep) as (q & Hn & Hq).
    assert (Hplain : forallb plain_pair q = true).
    { destruct Hq as [Hq|(_ & [->|[_ Hq]])]; [by apply (Hs K)|done|by apply Hp]. }
    destruct (notify_plain c q (set_callbackMap (delete K (callbackMap s)) s) Hplain)
      as (s1 & Hn1 & Hm & Hp1 & Ht).
    rewrite Hn in Hn1. injection Hn1 as <-. cbn [callbackMap trace set_callbackMap prototype] in *.
    split; [|split; [|split]].
    + intros L q' Hq'. rewrite Hm in Hq'.
      destruct (decide (K = L)) as [->|Hne].
      * by rewrite lookup_delete_eq in Hq'.
      * rewrite lookup_delete_ne in Hq' by done. by apply (Hs L).
    + by rewrite Hp1.
    + rewrite Hm. destruct (decide (K = "__proto__")) as [->|Hne].
      * apply lookup_delete_eq.
      * by rewrite lookup_delete_ne.
    + by rewrite Ht, actual_loads_app, actual_loads_notification.
Qed.

(** Loads of [__proto__] are never shared: in a session of a new loader
    whose handlers do not call [load] themselves, [__proto__] never gets
    an entry, and every [load] of it starts an underlying load of its
    own. *)
Theorem proto_loads_are_never_shared realm ops s :
  forallb plain_op ops = true ->
  run realm ops create = Some s ->
  callbackMap s !! "__proto__" = None
  /\ actual_loads "__proto__" (trace s) = length (List.filter (is_load_of "__proto__") ops).
Proof.
  intros Hplain Hrun.
  assert (Hgen : forall s0,
            all_plain s0 ->
            (forall a, prototype s0 = Some a -> forallb plain_pair a = true) ->
            callbackMap s0 !! "__proto__" = None ->
            run realm ops s0 = Some s ->
            callbackMap s !! "__proto__" = None
            /\ actual_loads "__proto__" (trace s)
               = actual_loads "__proto__" (trace s0)
                 + length (List.filter (is_load_of "__proto__") ops)).
  { clear Hrun. induction ops as [|op ops IH]; intros s0 Hs0 Hp0 Hown; cbn [run].
    - intros [= <-]. simpl. split; [done | lia].
    - simpl in Hplain. apply andb_prop in Hplain as [Hop Hops].
      destruct (step realm s0 op) as [s1|] eqn:Hstep; [|done]. intros Hrun.
      destruct (step_plain_prototype realm s0 op s1 Hop Hs0 Hp0 Hown Hstep)
        as (Hs1 & Hp1 & Hown1 & Hcount).
      destruct (IH Hops s1 Hs1 Hp1 Hown1 Hrun) as [Hfin Hn].
      split; [done|]. rewrite Hn, Hcount. simpl.
      destruct (is_load_of "__proto__" op); simpl; lia. }
  destruct (Hgen create) as [Hown Hn]; [|done|done|done|].
  - intros L q. simpl. by rewrite lookup_empty.
  - split; [done|]. rewrite Hn. done.
Qed.

End OnlyOnceSessions_facts.

(** ** WorkerScriptLoader: every way through [load] *)

Section WorkerScriptLoader_more.
Import WorkerScriptLoader.
Context {Err W : Type}.
Implicit Types (importScripts : string -> W -> Outcome Err W).
Implicit Types (callback : W -> Outcome Err W) (errorback : Err -> W -> Outcome Err W).

(** Whatever the two functions do, the success callback is called
    exactly when [importScripts] returns, once, on the scope the import
    left; the failure callback is called at most once, with what
    [importScripts] threw or with what the success callback threw. *)
Theorem worker_calls importScripts scriptSrc callback errorback w :
  calls_of (load importScripts scriptSrc callback errorback w [])
  = match importScripts scriptSrc w with
    | Thrown err _ => [EErrorback err]
    | Returned w1 =>
        match callback w1 with
        | Returned _ => [ECallback]
        | Thrown err _ => [ECallback; EErrorback err]
        end
    end.
Proof.
  destruct (importScripts scriptSrc w) as [w1|err w1] eqn:Hi.
  - destruct (callback w1) as [w2|err w2] eqn:Hc.
    + by rewrite (load_callback_returns _ _ _ _ _ _ _ _ Hi Hc).
    + by rewrite (load_callback_throws _ _ _ _ _ _ _ _ _ Hi Hc), calls_of_exec.
  - by rewrite (load_import_throws _ _ _ _ _ _ _ _ Hi), calls_of_exec.
Qed.

(** [load] catches whatever [importScripts] and the success callback
    throw: an exception leaves [load] only when the failure callback
    itself threw it. *)
Theorem worker_load_throws_only_what_errorback_throws
    importScripts scriptSrc callback errorback w calls err w' calls' :
  load importScripts scriptSrc callback errorback w calls = Raised err w' calls' ->
  exists err0 w0, errorback err0 w0 = Thrown err w'.
Proof.
  unfold load, try_catch, seq, call, exec.
  destruct (importScripts scriptSrc w) as [w1|e1 w1].
  - destruct (callback w1) as [w2|e2 w2]; [done|].
    destruct (errorback e2 w2) as [w3|e3 w3] eqn:He; [done|].
    intros [= <- <- _]. by exists e2, w2.
  - destruct (errorback e1 w1) as [w3|e3 w3] eqn:He; [done|].
    intros [= <- <- _]. by exists e1, w1.
Qed.

End WorkerScriptLoader_more.

(** ** NodeScriptLoader: every way through [load] *)

Section NodeScriptLoader_more.
Import NodeScriptLoader NodeTraces.
Context {Err Buffer Value : Type}.
Implicit Types (host : Host Err Buffer Value) (opts : Options).
Implicit Types (script : INodeVMScript Buffer) (t pre post : list (Event Err Buffer Value)).

(** The five shapes of a trace of [load]. *)
Lemma load_shapes host opts (scriptSrc : string) :
  let file := fileUriToFilePath host scriptSrc in
  let v := vmScriptSrc_of host (normalize (_path host) file) in
  let c := match nodeInstrumenter opts with
           | Some instrument => instrument (contents (match readFile_utf8 (_fs host) file with
                                                      | inr data => data
                                                      | inl _ => []
                                                      end)) (normalize (_path host) file)
           | None => contents (match readFile_utf8 (_fs host) file with
                               | inr data => data
                               | inl _ => []
                               end)
           end in
  (String.prefix "node|" scriptSrc = true
   /\ exists err, nodeRequire host (native_name scriptSrc) = inl err
        /\ load host opts scriptSrc = [EErrorback err])
  \/ (String.prefix "node|" scriptSrc = true
      /\ exists moduleExports, nodeRequire host (native_name scriptSrc) = inr moduleExports
           /\ load host opts scriptSrc
              = [EEnqueueDefineAnonymousModule [] moduleExports; ECallback])
  \/ (String.prefix "node|" scriptSrc = false
      /\ exists err, readFile_utf8 (_fs host) file = inl err
           /\ load host opts scriptSrc = [EReadFile file (Some "utf8"); EErrorback err])
  \/ (String.prefix "node|" scriptSrc = false
      /\ configured_dir opts = None
      /\ (exists data, readFile_utf8 (_fs host) file = inr data)
      /\ load host opts scriptSrc
         = [EReadFile file (Some "utf8");
            ERecord NodeBeginEvaluatingScript file;
            ERunScript c {| filename := v; produceCachedData := None; cachedData := None |}
              v (dirname (_path host) file);
            ERecord NodeEndEvaluatingScript file;
            ECallback])
  \/ (String.prefix "node|" scriptSrc = false
      /\ (exists data, readFile_utf8 (_fs host) file = inr data)
      /\ exists dir, configured_dir opts = Some dir
           /\ let path := _getCachedDataPath host dir file in
              let o := {| filename := v;
                          produceCachedData :=
                            Some (match readFile (_fs host) path with
                                  | None => true
                                  | Some _ => false
                                  end);
                          cachedData := readFile (_fs host) path |} in
              load host opts scriptSrc
              = [EReadFile file (Some "utf8");
                 EReadFile path None;
                 ERecord NodeBeginEvaluatingScript file;
                 ERunScript c o v (dirname (_path host) file);
                 ERecord NodeEndEvaluatingScript file;
                 ECallback]
                ++ aftermath host opts path (Script (_vm host) c o)).
Proof.
  cbv zeta. unfold load.
  destruct (String.prefix "node|" scriptSrc).
  - destruct (nodeRequire host (native_name scriptSrc)) as [err|v0] eqn:Hr.
    + left. split; [done|]. by exists err.
    + right; left. split; [done|]. by exists v0.
  - do 2 right. cbv zeta.
    destruct (readFile_utf8 (_fs host) (fileUriToFilePath host scriptSrc)) as [err|data] eqn:Hread.
    + left. split; [done|]. by exists err.
    + right. unfold onSourceRead.
      destruct (configured_dir opts) as [dir|] eqn:Hdir.
      * right. split; [done|]. split; [by exists data|]. exists dir. split; [done|].
        unfold onCachedDataRead, _loadAndEvalScript. reflexivity.
      * left. split; [done|]. split; [done|]. split; [by exists data|].
        unfold _loadAndEvalScript. reflexivity.
Qed.

(** Case analysis on the membership of an event in an explicit trace. *)
Ltac which_event :=
  repeat match goal with
         | H : In _ (_ :: _) |- _ => destruct H as [H|H]
         | H : In _ [] |- _ => destruct H
         | H : @eq (Event _ _ _) _ _ |- _ => first [discriminate H | injection H as; subst]
         end.

Lemma aftermath_events host opts (path : string) script (e : Event Err Buffer Value) :
  In e (aftermath host opts path script) -> is_cache_action e = true.
Proof.
  intros Hin. pose proof (aftermath_cache_only host opts path script) as Hall.
  rewrite forallb_forall in Hall. by apply Hall.
Qed.

Lemma cache_actions_are_not_evaluations t :
  forallb is_cache_action t = true ->
  List.filter (fun e => is_evaluation e || is_recorder_event e) t = [].
Proof.
  induction t as [|e t IH]; [done|]. simpl. intros [He Ht]%andb_prop.
  rewrite (IH Ht). by destruct e.
Qed.

(** [load] calls exactly one of the two callbacks of its caller, once:
    whatever the locator, the options and the host, its trace holds one
    call of [callback] or [errorback]. *)
Theorem node_load_calls_back_exactly_once host opts (scriptSrc : string) :
  length (List.filter is_caller_event (load host opts scriptSrc)) = 1.
Proof.
  pose proof (load_shapes host opts scriptSrc) as Hshape. cbv zeta in Hshape.
  destruct Hshape as [(_ & err & _ & ->)|[(_ & v0 & _ & ->)|[(_ & err & _ & ->)|
    [(_ & _ & _ & ->)|(_ & _ & dir & _ & ->)]]]]; try reflexivity.
  rewrite List.filter_app,
    (cache_actions_are_not_caller_events _ (aftermath_cache_only host opts _ _)).
  reflexivity.
Qed.

(** When the failure callback is called, nothing was evaluated,
    registered, recorded or done to the cache: the trace is that one call,
    after the read of the script when the locator is a file. *)
Theorem node_failure_means_nothing_ran host opts (scriptSrc : string) (err : Err) :
  In (EErrorback err) (load host opts scriptSrc) ->
  load host opts scriptSrc = [EErrorback err]
  \/ load host opts scriptSrc
     = [EReadFile (fileUriToFilePath host scriptSrc) (Some "utf8"); EErrorback err].
Proof.
  pose proof (load_shapes host opts scriptSrc) as Hshape. cbv zeta in Hshape.
  destruct Hshape as [(_ & err0 & _ & ->)|[(_ & v0 & _ & ->)|[(_ & err0 & _ & ->)|
    [(_ & _ & _ & ->)|(_ & _ & dir & _ & ->)]]]]; intros Hin.
  - which_event. by left.
  - which_event.
  - which_event. by right.
  - which_event.
  - apply in_app_or in Hin as [Hin|Hin]; [which_event|].
    by apply aftermath_events in Hin.
Qed.

(** Without a cache directory (none, or the empty string) the cache is
    left alone: no cache file is read, nothing is scheduled, written,
    deleted or reported. *)
Theorem node_no_cache_dir_no_cache_access host opts (scriptSrc : string) :
  configured_dir opts = None ->
  List.filter (fun e => is_cache_action e || is_cache_read e) (load host opts scriptSrc) = [].
Proof.
  intros Hdir. pose proof (load_shapes host opts scriptSrc) as Hshape. cbv zeta in Hshape.
  destruct Hshape as [(_ & err0 & _ & ->)|[(_ & v0 & _ & ->)|[(_ & err0 & _ & ->)|
    [(_ & _ & _ & ->)|(_ & _ & dir & Hdir' & _)]]]]; try reflexivity.
  by rewrite Hdir in Hdir'.
Qed.

(** The recorder brackets the evaluation: a script that is run is run
    between the begin and the end event of its file, under the name that
    is also the [filename] of its options and with the directory of the
    file; nothing else in the trace is an evaluation or a recorder
    event. *)
Theorem node_evaluation_is_bracketed host opts (scriptSrc : string)
    (c : list N) (o : INodeVMScriptOptions Buffer) (v d : string) :
  In (ERunScript c o v d) (load host opts scriptSrc) ->
  exists pre post,
    load host opts scriptSrc
    = pre ++ [ERecord NodeBeginEvaluatingScript (fileUriToFilePath host scriptSrc);
              ERunScript c o v d;
              ERecord NodeEndEvaluatingScript (fileUriToFilePath host scriptSrc)] ++ post
    /\ List.filter (fun e => is_evaluation e || is_recorder_event e) (pre ++ post) = []
    /\ filename o = v
    /\ d = dirname (_path host) (fileUriToFilePath host scriptSrc).
Proof.
  pose proof (load_shapes host opts scriptSrc) as Hshape. cbv zeta in Hshape.
  destruct Hshape as [(_ & err0 & _ & ->)|[(_ & v0 & _ & ->)|[(_ & err0 & _ & ->)|
    [(_ & _ & _ & ->)|(_ & _ & dir & _ & ->)]]]]; intros Hin.
  - which_event.
  - which_event.
  - which_event.
  - which_event.
    exists [EReadFile (fileUriToFilePath host scriptSrc) (Some "utf8")], [ECallback].
    by split_and!.
  - apply in_app_or in Hin as [Hin|Hin]; [|by apply aftermath_events in Hin].
    which_event.
    eexists [EReadFile (fileUriToFilePath host scriptSrc) (Some "utf8"); EReadFile _ None],
            (ECallback :: aftermath host opts _ _).
    split; [reflexivity|]. split; [|done].
    cbn [app List.filter is_evaluation is_recorder_event orb].
    apply cache_actions_are_not_evaluations, aftermath_cache_only.
Qed.

(** Cached data is asked for exactly when none is supplied: with a cache
    directory the script is compiled with what the read of the cache file
    gave, and with [produceCachedData] set to whether that was nothing;
    without one, neither option is given. *)
Theorem node_cached_data_requested_iff_none_supplied host opts (scriptSrc : string)
    (c : list N) (o : INodeVMScriptOptions Buffer) (v d : string) :
  In (ERunScript c o v d) (load host opts scriptSrc) ->
  match configured_dir opts with
  | Some dir =>
      cachedData o
      = readFile (_fs host) (_getCachedDataPath host dir (fileUriToFilePath host scriptSrc))
      /\ produceCachedData o
         = Some (match cachedData o with None => true | Some _ => false end)
  | None => cachedData o = None /\ produceCachedData o = None
  end.
Proof.
  pose proof (load_shapes host opts scriptSrc) as Hshape. cbv zeta in Hshape.
  destruct Hshape as [(_ & err0 & _ & ->)|[(_ & v0 & _ & ->)|[(_ & err0 & _ & ->)|
    [(_ & Hdir & _ & ->)|(_ & _ & dir & Hdir & ->)]]]]; intros Hin; try by which_event.
  - which_event. by rewrite Hdir.
  - rewrite Hdir. apply in_app_or in Hin as [Hin|Hin]; [|by apply aftermath_events in Hin].
    by which_event.
Qed.

Lemma aftermath_paths host opts (path : string) script :
  Forall (fun p => p = path) (omap cache_path (aftermath host opts path script)).
Proof.
  unfold aftermath, onTimeout, _runSoon.
  destruct (cachedDataRejected script); [|destruct (cachedDataProduced script)]; simpl.
  - destruct (unlink (_fs host) path); simpl; by repeat constructor.
  - destruct (writeFile (_fs host) path (script_cachedData script)); simpl;
      by repeat constructor.
  - constructor.
Qed.

(** One load, one cache file: every read, timer, deletion, write and
    report of a load is about the file whose name [_getCachedDataPath]
    gives for the script. *)
Theorem node_cache_events_share_one_path host opts (scriptSrc dir : string) :
  configured_dir opts = Some dir ->
  Forall (fun p => p = _getCachedDataPath host dir (fileUriToFilePath host scriptSrc))
    (omap cache_path (load host opts scriptSrc)).
Proof.
  intros Hdir. pose proof (load_shapes host opts scriptSrc) as Hshape. cbv zeta in Hshape.
  destruct Hshape as [(_ & err0 & _ & ->)|[(_ & v0 & _ & ->)|[(_ & err0 & _ & ->)|
    [(_ & _ & _ & ->)|(_ & _ & dir' & Hdir' & ->)]]]]; try by repeat constructor.
  rewrite Hdir in Hdir'. injection Hdir' as <-.
  cbn [app omap list_omap cache_path]. constructor; [done|]. apply aftermath_paths.
Qed.

(** A native module is resolved without the file system, the vm, the
    recorder or the cache: the trace of a [node|] locator holds calls of
    the caller's callbacks and the registration only. *)
Theorem node_native_form_leaves_host_alone host opts (scriptSrc : string) :
  String.prefix "node|" scriptSrc = true ->
  List.filter touches_host (load host opts scriptSrc) = [].
Proof.
  intros Hform. unfold load. rewrite Hform.
  by destruct (nodeRequire host (native_name scriptSrc)).
Qed.

Lemma aftermath_performs_what_it_schedules host opts (path : string) script :
  performed (aftermath host opts path script) = scheduled (aftermath host opts path script)
  /\ length (scheduled (aftermath host opts path script)) <= 1.
Proof.
  unfold aftermath, onTimeout, _runSoon, performed, scheduled.
  destruct (cachedDataRejected script); [|destruct (cachedDataProduced script)]; simpl.
  - destruct (unlink (_fs host) path); simpl; split; done || lia.
  - destruct (writeFile (_fs host) path (script_cachedData script)); simpl; split; done || lia.
  - split; done || lia.
Qed.

(** The cache is changed by timers only: the deletions and writes of a
    load are exactly the tasks it handed to [_runSoon], and there is at
    most one. *)
Theorem node_cache_changes_are_the_scheduled_ones host opts (scriptSrc : string) :
  performed (load host opts scriptSrc) = scheduled (load host opts scriptSrc)
  /\ length (scheduled (load host opts scriptSrc)) <= 1.
Proof.
  pose proof (load_shapes host opts scriptSrc) as Hshape. cbv zeta in Hshape.
  destruct Hshape as [(_ & err0 & _ & ->)|[(_ & v0 & _ & ->)|[(_ & err0 & _ & ->)|
    [(_ & _ & _ & ->)|(_ & _ & dir' & Hdir' & ->)]]]]; try (split; done || (simpl; lia)).
  unfold performed, scheduled. cbn [app omap list_omap].
  apply aftermath_performs_what_it_schedules.
Qed.

(** [_runSoon] with no delay or no jitter: a minimum delay of zero gives
    a timeout of zero whatever [Math.random()] returns, and a random
    value of zero gives the minimum delay itself. *)
Theorem runSoon_without_delay_or_jitter (random d : Q) :
  (d == 0)%Q \/ (random == 0)%Q ->
  (_runSoon_timeout random d == d)%Q.
Proof.
  intros Hzero. unfold _runSoon_timeout.
  assert (Hprod : (random * d == 0)%Q).
  { destruct Hzero as [H|H]; rewrite H; ring. }
  rewrite (Qceiling_comp _ _ Hprod). change (Qceiling 0) with 0%Z. ring.
Qed.

(** [_runSoon] with no delay or no jitter, as the machine computes it:
    for a minimum delay that is a double, the timeout is that delay when
    it is zero and when [Math.random()] returns zero. *)
Theorem runSoon_double_without_delay_or_jitter (random d : Q) :
  Numbers.is_double d ->
  (d == 0)%Q \/ (random == 0)%Q ->
  (_runSoon_timeout_double random d == d)%Q.
Proof.
  intros Hdbl Hzero.
  unfold _runSoon_timeout_double, Numbers.add, Numbers.multiply, Numbers.Math_ceil.
  assert (Hprod : (random * d == 0)%Q).
  { destruct Hzero as [H|H]; rewrite H; ring. }
  assert (Hp : (Numbers.nearest_double (random * d) == 0)%Q).
  { rewrite (nearest_double_comp _ _ Hprod). apply nearest_double_0. }
  rewrite (Qceiling_comp _ _ Hp). change (Qceiling 0) with 0%Z.
  rewrite (nearest_double_comp (d + inject_Z 0) d) by ring. exact Hdbl.
Qed.


(** A whole number of milliseconds below [2^52] is delayed by a whole
    number: the timeout is the minimum delay [n] plus a jitter that is a
    whole number between 0 and [n]. *)
Theorem runSoon_whole_delay_gives_whole_timeout host (task : Task Buffer) (n : Z) :
  (0 < n < 2 ^ 52)%Z ->
  (0 <= Math_random host)%Q -> (Math_random host < 1)%Q ->
  exists jitter : Z,
    (0 <= jitter <= n)%Z
    /\ _runSoon host task (inject_Z n) = ESetTimeout task (inject_Z (n + jitter)).
Proof.
  intros Hn Hr0 Hr1. unfold _runSoon.
  unfold _runSoon_timeout_double, Numbers.add, Numbers.multiply, Numbers.Math_ceil.
  set (r := Math_random host) in *.
  set (p := Numbers.nearest_double (r * inject_Z n)).
  assert (Hn0 : (0 < inject_Z n)%Q).
  { change 0%Q with (inject_Z 0). rewrite <- Zlt_Qlt. lia. }
  assert (Hdbl : Numbers.is_double (inject_Z n)) by (apply is_double_Z; lia).
  unfold Numbers.is_double in Hdbl.
  assert (Hlo : (0 <= r * inject_Z n)%Q) by (apply Qmult_le_0_compat; lra).
  assert (Hhi : (r * inject_Z n <= inject_Z n)%Q).
  { rewrite <- (Qmult_1_l (inject_Z n)) at 2. apply Qmult_le_compat_r; lra. }
  assert (Hp0 : (0 <= p)%Q).
  { apply Qle_trans with (Numbers.nearest_double 0); [by rewrite nearest_double_0|].
    by apply nearest_double_mono. }
  assert (Hp1 : (p <= inject_Z n)%Q).
  { apply Qle_trans with (Numbers.nearest_double (inject_Z n));
      [by apply nearest_double_mono|]. rewrite Hdbl. apply Qle_refl. }
  assert (Hc0 : (0 <= Qceiling p)%Z).
  { change 0%Z with (Qceiling 0). by apply Qceiling_resp_le. }
  assert (Hc1 : (Qceiling p <= n)%Z).
  { rewrite <- (Qceiling_Z n). by apply Qceiling_resp_le. }
  exists (Qceiling p). split; [lia|]. f_equal.
  rewrite (nearest_double_ext (inject_Z n + inject_Z (Qceiling p))
             (inject_Z (n + Qceiling p))) by (rewrite inject_Z_plus; reflexivity).
  apply nearest_double_Z. lia.
Qed.

End NodeScriptLoader_more.

Section NodeScriptLoader_names.
Import NodeScriptLoader NodeTraces.

Lemma split_head (sep : ascii) (name rest : string) :
  (forall c, c ∈ String.list_ascii_of_string name -> c <> sep) ->
  hd EmptyString (split sep (name +:+ String sep rest)) = name.
Proof.
  induction name as [|c name IH]; intros Hfree.
  - change (EmptyString +:+ String sep rest) with (String sep rest).
    simpl. by rewrite Ascii.eqb_refl.
  - change (String c name +:+ String sep rest) with (String c (name +:+ String sep rest)).
    simpl. destruct (Ascii.eqb_spec c sep) as [->|_].
    + exfalso. apply (Hfree sep); [simpl; left | done].
    + assert (Hname : hd EmptyString (split sep (name +:+ String sep rest)) = name).
      { apply IH. intros c' Hc'. apply Hfree. simpl. by right. }
      pose proof (split_nonempty sep (name +:+ String sep rest)) as Hne.
      destruct (split sep (name +:+ String sep rest)); [done|].
      simpl in *. by rewrite Hname.
Qed.

(** Only the piece between the first and the second [|] names the
    module: whatever follows a second [|] in the locator is ignored. *)
Theorem native_name_stops_at_second_pipe (name rest : string) :
  (forall c, c ∈ String.list_ascii_of_string name -> c <> "|"%char) ->
  native_name ("node|" +:+ (name +:+ String "|" rest)) = name.
Proof. intros Hfree. by rewrite native_name_node, split_head. Qed.

Lemma replace_backslashes_chars (p : string) (c : ascii) :
  c ∈ String.list_ascii_of_string (replace_backslashes p) -> c <> "\"%char.
Proof.
  induction p as [|x p IH]; simpl; [by intros ?%elem_of_nil|].
  intros [->|Hin]%elem_of_cons; [|by apply IH].
  destruct (Ascii.eqb_spec x "\"); [done|]. by destruct (Ascii.eqb x "\").
Qed.

Lemma letters_upper_case (c : ascii) :
  is_letter c = true ->
  is_letter (toUpperCase c) = true
  /\ is_upper (toUpperCase c) = true
  /\ toUpperCase (toUpperCase c) = toUpperCase c.
Proof.
  destruct c as [b0 b1 b2 b3 b4 b5 b6 b7].
  destruct b0, b1, b2, b3, b4, b5, b6, b7; vm_compute; intros H; try discriminate H;
    by split_and!.
Qed.

End NodeScriptLoader_names.

Section NodeScriptLoader_renderer.
Import NodeScriptLoader NodeTraces.
Context {Err Buffer Value : Type}.
Implicit Types (host : Host Err Buffer Value).

(** Inside the renderer the script is compiled under a [file:///] name
    written with forward slashes only. *)
Theorem renderer_name_is_a_file_uri host (normalizedScriptSrc : string) :
  isElectronRenderer host = true ->
  exists rest,
    vmScriptSrc_of host normalizedScriptSrc = "file:///" +:+ rest
    /\ forall c, c ∈ String.list_ascii_of_string rest -> c <> "\"%char.
Proof.
  intros Hr. unfold vmScriptSrc_of. rewrite Hr.
  eexists. split; [reflexivity|]. apply replace_backslashes_chars.
Qed.

(** The case of a drive letter does not matter to the renderer: [c:...]
    and [C:...] are compiled under the same name, whose drive letter is
    the upper case one. *)
Theorem renderer_name_ignores_drive_letter_case host (c : ascii) (rest : string) :
  isElectronRenderer host = true ->
  is_letter c = true ->
  vmScriptSrc_of host (String c (String ":" rest))
  = vmScriptSrc_of host (String (toUpperCase c) (String ":" rest))
  /\ exists tail,
       vmScriptSrc_of host (String c (String ":" rest))
       = "file:///" +:+ String (toUpperCase c) (String ":" tail)
       /\ is_upper (toUpperCase c) = true.
Proof.
  intros Hr Hc. destruct (letters_upper_case c Hc) as (Hl & Hu & Hidem).
  unfold vmScriptSrc_of, driveLetterMatch. rewrite Hr, Hc, Hl, Hidem.
  split; [done|]. eexists. split; [|done].
  cbn [replace_backslashes]. destruct (Ascii.eqb_spec (toUpperCase c) "\") as [Heq|_].
  - rewrite Heq in Hu. discriminate Hu.
  - reflexivity.
Qed.

End NodeScriptLoader_renderer.

(** ** BrowserScriptLoader *)

Section BrowserScriptLoader_facts.
Import BrowserScriptLoader.
Context {Ev : Type}.
Implicit Types (doc : Document) (script : nat) (events : list (string * Ev)).

Lemma listeners_of_update script (f : HTMLScriptElement -> HTMLScriptElement) doc :
  listeners_of script (update script f doc)
  = match elements doc !! script with
    | Some el => listeners (f el)
    | None => []
    end.
Proof.
  unfold listeners_of, update. simpl. rewrite lookup_alter_eq.
  by destruct (elements doc !! script).
Qed.

Lemma elements_update_is_Some script (f : HTMLScriptElement -> HTMLScriptElement) doc :
  is_Some (elements doc !! script) ->
  is_Some (elements (update script f doc) !! script).
Proof. intros [el Hel]. unfold update. simpl. rewrite lookup_alter_eq, Hel. by eexists. Qed.

(** [unbind] on an element with the two listeners leaves none. *)
Lemma unbind_armed script doc :
  is_Some (elements doc !! script) ->
  listeners_of script doc = armed ->
  listeners_of script (unbind script doc) = []
  /\ is_Some (elements (unbind script doc) !! script).
Proof.
  intros Hsome Harmed. unfold unbind, removeEventListener. split.
  - rewrite listeners_of_update.
    destruct (elements_update_is_Some script
                (fun el => {| attributes := attributes el;
                              listeners := List.filter
                                (fun tl => negb (bool_decide (tl = ("load", loadEventListener))))
                                (listeners el) |}) doc Hsome) as [el1 Hel1].
    rewrite Hel1. simpl.
    assert (Hl1 : listeners el1 = [("error", errorEventListener)]).
    { pose proof (listeners_of_update script
                    (fun el => {| attributes := attributes el;
                                  listeners := List.filter
                                    (fun tl => negb (bool_decide (tl = ("load", loadEventListener))))
                                    (listeners el) |}) doc) as Hu.
      unfold listeners_of at 1 in Hu. rewrite Hel1 in Hu. rewrite Hu.
      destruct Hsome as [el Hel]. rewrite Hel. simpl.
      unfold listeners_of in Harmed. rewrite Hel in Harmed. by rewrite Harmed. }
    by rewrite Hl1.
  - by do 2 apply elements_update_is_Some.
Qed.

(** An event at an element with the two listeners. *)
Lemma dispatch_armed script (type : string) (e : Ev) doc :
  is_Some (elements doc !! script) ->
  listeners_of script doc = armed ->
  dispatchEvent script type e doc
  = if bool_decide (type = "load") then ([ECallback], unbind script doc)
    else if bool_decide (type = "error") then ([EErrorback e], unbind script doc)
    else ([], doc).
Proof.
  intros [el Hel] Harmed. unfold dispatchEvent. rewrite Hel.
  unfold listeners_of in Harmed. rewrite Hel in Harmed. rewrite Harmed.
  assert (Hreg : forall tl, tl ∈ armed -> registered script tl.1 tl.2 doc = true).
  { intros [t l] Hin. unfold registered. rewrite Hel, Harmed. by apply bool_decide_eq_true_2. }
  destruct (decide (type = "load")) as [->|Hload].
  - change (List.filter (fun tl : string * Listener => bool_decide (tl.1 = "load")) armed)
      with [("load", loadEventListener)].
    assert (H1 : registered script "load" loadEventListener doc = true).
    { apply (Hreg ("load", loadEventListener)), elem_of_cons. by left. }
    cbn [fold_left fst snd]. by rewrite H1.
  - rewrite (bool_decide_eq_false_2 (type = "load")) by done.
    destruct (decide (type = "error")) as [->|Herror].
    + change (List.filter (fun tl : string * Listener => bool_decide (tl.1 = "error")) armed)
        with [("error", errorEventListener)].
      assert (H1 : registered script "error" errorEventListener doc = true).
      { apply (Hreg ("error", errorEventListener)), elem_of_cons. right.
        apply elem_of_cons. by left. }
      cbn [fold_left fst snd]. by rewrite H1.
    + rewrite (bool_decide_eq_false_2 (type = "error")) by done.
      unfold armed. cbn [List.filter fst].
      rewrite (bool_decide_eq_false_2 ("load" = type)) by done.
      by rewrite (bool_decide_eq_false_2 ("error" = type)) by done.
Qed.

(** Events at an element without listeners call nothing. *)
Lemma dispatch_unbound script events doc :
  listeners_of script doc = [] ->
  dispatchEvents script events doc = ([], doc).
Proof.
  intros Hnone. induction events as [|[type e] events IH]; [done|].
  cbn [dispatchEvents].
  assert (Hd : dispatchEvent script type e doc = ([], doc)).
  { unfold dispatchEvent. unfold listeners_of in Hnone.
    destruct (elements doc !! script) as [el|]; [|done]. by rewrite Hnone. }
  by rewrite Hd, IH.
Qed.

Lemma dispatchEvents_armed script events doc :
  is_Some (elements doc !! script) ->
  listeners_of script doc = armed ->
  (dispatchEvents script events doc).1 = first_outcome events
  /\ (first_outcome events <> [] ->
      listeners_of script (dispatchEvents script events doc).2 = []).
Proof.
  intros Hsome Harmed. induction events as [|[type e] events IH]; [done|].
  cbn [dispatchEvents first_outcome].
  rewrite (dispatch_armed script type e doc Hsome Harmed).
  destruct (unbind_armed script doc Hsome Harmed) as [Hunbound _].
  destruct (bool_decide (type = "load")).
  - rewrite (dispatch_unbound script events _ Hunbound). by split.
  - destruct (bool_decide (type = "error")).
    + rewrite (dispatch_unbound script events _ Hunbound). by split.
    + destruct (dispatchEvents script events doc) as [calls doc']. apply IH.
Qed.

(** The element that [load] makes. *)
Lemma load_element (scriptSrc : string) doc :
  (load scriptSrc doc).1 = created doc
  /\ elements (document_of (load scriptSrc doc).2) !! created doc
     = Some {| attributes :=
                 <["src" := scriptSrc]>
                   (<["type" := "text/javascript"]> (<["async" := "async"]> ∅));
               listeners := armed |}
  /\ forall other, other <> created doc ->
       elements (document_of (load scriptSrc doc).2) !! other = elements doc !! other.
Proof.
  unfold load, createElement, setAttribute, attachListeners, addEventListener, update.
  cbn [fst snd elements created head].
  split; [done|].
  split.
  - destruct (head doc) as [children|]; cbn [document_of elements];
      rewrite !alter_insert_eq, lookup_insert_eq; reflexivity.
  - intros other Hne.
    destruct (head doc) as [children|]; cbn [document_of elements];
      rewrite !alter_insert_eq, lookup_insert_ne; done.
Qed.

(** However many [load] and [error] events the browser fires at the
    element of a [load], and in whatever order, exactly the first of them
    is passed on: [callback] for [load], [errorback] with the event for
    [error]; events of other types do nothing.  After that first event
    the element has no listener left. *)
Theorem browser_first_event_decides_once (scriptSrc : string) doc children events :
  head doc = Some children ->
  exists doc',
    (load scriptSrc doc).2 = Returned doc'
    /\ (dispatchEvents (load scriptSrc doc).1 events doc').1 = first_outcome events
    /\ (first_outcome events <> [] ->
        listeners_of (load scriptSrc doc).1
          (dispatchEvents (load scriptSrc doc).1 events doc').2 = []).
Proof.
  intros Hhead. destruct (load_element scriptSrc doc) as (Hid & Hel & _).
  assert (Hret : exists doc', (load scriptSrc doc).2 = Returned doc').
  { unfold load, createElement. cbn [snd]. unfold setAttribute, attachListeners,
      addEventListener, update. cbn [head]. rewrite Hhead. by eexists. }
  destruct Hret as [doc' Hret]. exists doc'. split; [done|].
  rewrite Hret in Hel. cbn [document_of] in Hel. rewrite Hid.
  apply dispatchEvents_armed.
  - by rewrite Hel.
  - unfold listeners_of. by rewrite Hel.
Qed.

(** [load] adds one script element to the document and touches no other:
    the new element is the last child of [head], its [src] is the
    locator, and every element that was there is as it was. *)
Theorem browser_load_appends_one_script (scriptSrc : string) doc children :
  head doc = Some children ->
  exists doc',
    (load scriptSrc doc).2 = Returned doc'
    /\ head doc' = Some (children ++ [(load scriptSrc doc).1])
    /\ attributes_of (load scriptSrc doc).1 doc' !! "src" = Some scriptSrc
    /\ forall other, other <> (load scriptSrc doc).1 ->
         elements doc' !! other = elements doc !! other.
Proof.
  intros Hhead. destruct (load_element scriptSrc doc) as (Hid & Hel & Hframe).
  assert (Hret : exists doc', (load scriptSrc doc).2 = Returned doc'
                              /\ head doc' = Some (children ++ [created doc])).
  { unfold load, createElement. cbn [snd]. unfold setAttribute, attachListeners,
      addEventListener, update. cbn [head]. rewrite Hhead. by eexists. }
  destruct Hret as (doc' & Hret & Hhead'). exists doc'.
  rewrite Hret in Hel, Hframe. cbn [document_of] in Hel, Hframe. rewrite Hid.
  split_and!; [done|done| |done].
  unfold attributes_of. rewrite Hel. simpl. apply lookup_insert_eq.
Qed.

End BrowserScriptLoader_facts.

(** ** The modules of the NodeScriptLoader *)

Section NodeScriptLoaderInit_facts.
Import NodeScriptLoaderInit.
Context {Err NodeModule : Type}.
Implicit Types (nodeRequire : string -> Err + NodeModule).
Implicit Types (this : NodeScriptLoaderObject NodeModule).

Lemma init_marks_initialized nodeRequire this :
  _initialized (_init nodeRequire this).1 = true.
Proof.
  unfold _init. destruct (_initialized this) eqn:Hi; [done|].
  destruct (nodeRequire "fs"); [done|]. destruct (nodeRequire "vm"); [done|].
  destruct (nodeRequire "path"); [done|]. by destruct (nodeRequire "crypto").
Qed.

Lemma inits_initialized (nodeRequires : list (string -> Err + NodeModule)) this :
  _initialized this = true -> inits nodeRequires this = this.
Proof.
  intros Hi. induction nodeRequires as [|r rs IH]; [done|].
  unfold inits in *. simpl. unfold _init at 2. by rewrite Hi.
Qed.

Lemma first_init_decides_aux nodeRequire
    (later : list (string -> Err + NodeModule)) this :
  inits later (_init nodeRequire this).1 = (_init nodeRequire this).1.
Proof. apply inits_initialized, init_marks_initialized. Qed.

(** The first [_init] decides: whatever [nodeRequire] later calls of
    [load] bring along, and whether or not the first call threw, the
    loader stays as the first call left it. *)
Theorem first_init_decides nodeRequire
    (later : list (string -> Err + NodeModule)) this :
  inits later (_init nodeRequire this).1 = (_init nodeRequire this).1.
Proof.
  induction later as [|r later IH]; [done|].
  unfold inits in *. cbn [fold_left]. unfold _init at 2.
  by rewrite init_marks_initialized.
Qed.

(** A failed [_init] is never repaired: when a [nodeRequire] of the first
    call on a new loader throws, the loader is marked initialized all the
    same, and its [_crypto] stays unbound through every later call. *)
Theorem failed_init_is_never_repaired nodeRequire
    (later : list (string -> Err + NodeModule)) (err : Err) :
  (_init nodeRequire constructor).2 = Some err ->
  _initialized (inits (nodeRequire :: later) constructor) = true
  /\ _crypto (inits (nodeRequire :: later) constructor) = None.
Proof.
  intros Hfail. unfold inits. cbn [fold_left]. fold (inits later (_init nodeRequire constructor).1).
  rewrite first_init_decides_aux. split; [apply init_marks_initialized|].
  revert Hfail. unfold _init, constructor. simpl.
  destruct (nodeRequire "fs"); [done|]. destruct (nodeRequire "vm"); [done|].
  destruct (nodeRequire "path"); [done|]. by destruct (nodeRequire "crypto").
Qed.

End NodeScriptLoaderInit_facts.

(** ** The further properties on the samples *)

Section OnlyOnceSessions_examples.
Import OnlyOnceScriptLoader OnlyOnceSessions Samples MoreSamples.


Lemma pending_entries_hold_a_caller_witness :
  exists s : State string,
    run standard_realm busy_session create = Some s
    /\ callbackMap s !! "b.js" = Some [late_caller]
    /\ [late_caller] <> [].
Proof.
  eexists. split; [reflexivity|]. split; [reflexivity|].
  eapply (pending_entries_hold_a_caller standard_realm "b.js" busy_session); reflexivity.
Defined.



(** Of the three pairs of the plain session the two of [a.js] were
    called, and the one of [b.js] waits. *)
Lemma every_pair_is_called_once_or_waits_witness :
  (forallb plain_op plain_session = true /\ forallb stores_entry plain_session = true)
  /\ exists s : State string,
       run standard_realm plain_session create = Some s
       /\ (exists called : list (Completion string * IScriptCallbacks),
             invocations (trace s) = (fun x => notification x.1 x.2) <$> called
             /\ (snd <$> called) ++ waiting_pairs (callbackMap s) ≡ₚ loaded plain_session)
       /\ invocations (trace s) = [EErrorback 2 "404"; EErrorback 6 "404"]
       /\ waiting_pairs (callbackMap s) = [late_caller].
Proof.
  split; [by split|]. eexists. split; [reflexivity|]. split; [|split; reflexivity].
  apply (every_pair_is_called_once_or_waits standard_realm plain_session); reflexivity.
Defined.



(** Two loads of [__proto__], two underlying loads; the caller of the
    first is never called, the caller of the second twice. *)
Lemma proto_loads_are_never_shared_witness :
  forallb plain_op proto_session = true
  /\ exists s : State string,
       run standard_realm proto_session create = Some s
       /\ (callbackMap s !! "__proto__" = None
           /\ actual_loads "__proto__" (trace s)
              = length (List.filter (is_load_of "__proto__") proto_session))
       /\ actual_loads "__proto__" (trace s) = 2
       /\ invocations (trace s) = [ECallback 5; ECallback 5].
Proof.
  split; [reflexivity|]. eexists. split; [reflexivity|]. split; [|split; reflexivity].
  apply (proto_loads_are_never_shared standard_realm proto_session); reflexivity.
Defined.

End OnlyOnceSessions_examples.

Section WorkerScriptLoader_more_examples.
Import WorkerScriptLoader Samples MoreSamples.

Lemma load_exactly_one_witness :
  returns returning_callback
  /\ calls_of (load importScripts_fails "worker.js" returning_callback quiet_errorback tt [])
     = match importScripts_fails "worker.js" tt with
       | Returned _ => [ECallback]
       | Thrown err _ => [EErrorback err]
       end.
Proof.
  split; [intros w; by exists w|].
  apply (load_exactly_one importScripts_fails "worker.js" returning_callback quiet_errorback tt).
  intros w. by exists w.
Defined.

Lemma worker_load_throws_only_what_errorback_throws_witness :
  load importScripts_fails "worker.js" returning_callback throwing_errorback tt []
  = Raised "errorback failed" tt [EErrorback "NetworkError"]
  /\ exists err0 w0, throwing_errorback err0 w0 = Thrown "errorback failed" tt.
Proof.
  split; [reflexivity|].
  apply (worker_load_throws_only_what_errorback_throws
           importScripts_fails "worker.js" returning_callback throwing_errorback
           tt [] "errorback failed" tt [EErrorback "NetworkError"]).
  reflexivity.
Defined.

End WorkerScriptLoader_more_examples.

Section NodeScriptLoader_more_examples.
Import NodeScriptLoader NodeTraces Samples MoreSamples.

Lemma node_failure_means_nothing_ran_witness :
  In (EErrorback "ENOENT") (load unreadable_host cached_options "/src/main.js")
  /\ (load unreadable_host cached_options "/src/main.js" = [EErrorback "ENOENT"]
      \/ load unreadable_host cached_options "/src/main.js"
         = [EReadFile (fileUriToFilePath unreadable_host "/src/main.js") (Some "utf8");
            EErrorback "ENOENT"]).
Proof.
  split; [simpl; tauto|].
  apply (node_failure_means_nothing_ran unreadable_host cached_options "/src/main.js" "ENOENT").
  simpl. tauto.
Defined.

Lemma node_no_cache_dir_no_cache_access_witness :
  configured_dir uncached_options = None
  /\ List.filter (fun e => is_cache_action e || is_cache_read e)
       (load cold_host uncached_options "/src/main.js") = [].
Proof.
  split; [reflexivity|].
  apply (node_no_cache_dir_no_cache_access cold_host uncached_options "/src/main.js").
  reflexivity.
Defined.

Lemma node_evaluation_is_bracketed_witness :
  exists c o,
    In (ERunScript c o "/src/main.js" "/src") (load cold_host cached_options "/src/main.js")
    /\ exists pre post,
         load cold_host cached_options "/src/main.js"
         = pre ++ [ERecord NodeBeginEvaluatingScript (fileUriToFilePath cold_host "/src/main.js");
                   ERunScript c o "/src/main.js" "/src";
                   ERecord NodeEndEvaluatingScript (fileUriToFilePath cold_host "/src/main.js")]
               ++ post
         /\ List.filter (fun e => is_evaluation e || is_recorder_event e) (pre ++ post) = []
         /\ filename o = "/src/main.js"
         /\ "/src" = dirname (_path cold_host) (fileUriToFilePath cold_host "/src/main.js").
Proof.
  eexists _, _. split; [simpl; right; right; right; left; reflexivity|].
  apply (node_evaluation_is_bracketed cold_host cached_options "/src/main.js").
  simpl. right; right; right; left; reflexivity.
Defined.

Lemma node_cached_data_requested_iff_none_supplied_witness :
  exists c o,
    In (ERunScript c o "file:////src/main.js" "/src")
      (load stale_host cached_options "/src/main.js")
    /\ match configured_dir cached_options with
       | Some dir =>
           cachedData o
           = readFile (_fs stale_host)
               (_getCachedDataPath stale_host dir (fileUriToFilePath stale_host "/src/main.js"))
           /\ produceCachedData o
              = Some (match cachedData o with None => true | Some _ => false end)
       | None => cachedData o = None /\ produceCachedData o = None
       end.
Proof.
  eexists _, _. split; [simpl; right; right; right; left; reflexivity|].
  eapply (node_cached_data_requested_iff_none_supplied stale_host cached_options "/src/main.js").
  simpl. right; right; right; left; reflexivity.
Defined.

Lemma node_cache_events_share_one_path_witness :
  configured_dir cached_options = Some "/cache"
  /\ Forall (fun p => p = _getCachedDataPath stale_host "/cache"
                           (fileUriToFilePath stale_host "/src/main.js"))
       (omap cache_path (load stale_host cached_options "/src/main.js")).
Proof.
  split; [reflexivity|].
  apply (node_cache_events_share_one_path stale_host cached_options "/src/main.js" "/cache").
  reflexivity.
Defined.

Lemma node_native_form_leaves_host_alone_witness :
  String.prefix "node|" "node|fs" = true
  /\ List.filter touches_host (load cold_host cached_options "node|fs") = [].
Proof.
  split; [reflexivity|].
  apply (node_native_form_leaves_host_alone cold_host cached_options "node|fs").
  reflexivity.
Defined.

Lemma runSoon_without_delay_or_jitter_witness :
  ((0 == 0)%Q \/ (19 # 20 == 0)%Q)
  /\ (_runSoon_timeout (19 # 20) 0 == 0)%Q.
Proof.
  split; [left; reflexivity|].
  apply (runSoon_without_delay_or_jitter (19 # 20) 0). left. reflexivity.
Defined.

Lemma runSoon_double_without_delay_or_jitter_witness :
  (Numbers.is_double 10 /\ ((10 == 0)%Q \/ (0 == 0)%Q))
  /\ (_runSoon_timeout_double 0 10 == 10)%Q.
Proof.
  split; [split; [vm_compute; reflexivity | right; reflexivity]|].
  apply (runSoon_double_without_delay_or_jitter 0 10);
    [vm_compute; reflexivity | right; reflexivity].
Defined.


(** The double nearest to one tenth, and what the machine makes of it:
    ten times it is rounded to 1, so that a minimum delay of 10 is
    delayed to 11, where exact arithmetic gives 12; and a minimum delay
    of one tenth with a jitter of one half is delayed to the double
    nearest to 1.1. *)
Example one_tenth_as_a_double :
  Numbers.nearest_double (1 # 10) = (3602879701896397 # 36028797018963968)%Q
  /\ Numbers.multiply (Numbers.nearest_double (1 # 10)) 10 = 1%Q
  /\ _runSoon_timeout_double (Numbers.nearest_double (1 # 10)) 10 = 11%Q
  /\ _runSoon_timeout (Numbers.nearest_double (1 # 10)) 10 = 12%Q
  /\ _runSoon_timeout_double (1 # 2) (Numbers.nearest_double (1 # 10))
     = (2476979795053773 # 2251799813685248)%Q.
Proof. split_and!; vm_compute; reflexivity. Qed.

(** A delay of 10 with a jitter of a quarter: 3 more. *)
Lemma runSoon_whole_delay_gives_whole_timeout_witness :
  ((0 < 10 < 2 ^ 52)%Z
   /\ (0 <= Math_random stale_host)%Q /\ (Math_random stale_host < 1)%Q)
  /\ exists jitter : Z,
       (0 <= jitter <= 10)%Z
       /\ _runSoon stale_host (TUnlink "/cache/0cc175b9-main.code") (inject_Z 10)
          = ESetTimeout (TUnlink "/cache/0cc175b9-main.code") (inject_Z (10 + jitter)).
Proof.
  split; [split; [lia | split; [unfold Qle; simpl; lia | reflexivity]]|].
  apply (runSoon_whole_delay_gives_whole_timeout
           stale_host (TUnlink "/cache/0cc175b9-main.code") 10);
    [lia | unfold Qle; simpl; lia | reflexivity].
Defined.

Lemma native_name_stops_at_second_pipe_witness :
  (forall c, c ∈ String.list_ascii_of_string "fs" -> c <> "|"%char)
  /\ native_name ("node|" +:+ ("fs" +:+ String "|" "promises")) = "fs".
Proof.
  assert (Hfree : forall c, c ∈ String.list_ascii_of_string "fs" -> c <> "|"%char).
  { intros c Hc. apply list_elem_of_In in Hc. simpl in Hc.
    destruct Hc as [<-|[<-|[]]]; discriminate. }
  split; [exact Hfree|].
  apply (native_name_stops_at_second_pipe "fs" "promises" Hfree).
Defined.

Lemma renderer_name_is_a_file_uri_witness :
  isElectronRenderer stale_host = true
  /\ exists rest,
       vmScriptSrc_of stale_host "c:\src\main.js" = "file:///" +:+ rest
       /\ forall c, c ∈ String.list_ascii_of_string rest -> c <> "\"%char.
Proof.
  split; [reflexivity|].
  apply (renderer_name_is_a_file_uri stale_host "c:\src\main.js"). reflexivity.
Defined.

Lemma renderer_name_ignores_drive_letter_case_witness :
  (isElectronRenderer stale_host = true /\ is_letter "c" = true)
  /\ vmScriptSrc_of stale_host (String "c" (String ":" "\src\main.js"))
     = vmScriptSrc_of stale_host (String (toUpperCase "c") (String ":" "\src\main.js"))
  /\ exists tail,
       vmScriptSrc_of stale_host (String "c" (String ":" "\src\main.js"))
       = "file:///" +:+ String (toUpperCase "c") (String ":" tail)
       /\ is_upper (toUpperCase "c") = true.
Proof.
  split; [by split|].
  apply (renderer_name_ignores_drive_letter_case stale_host "c" "\src\main.js"); reflexivity.
Defined.

End NodeScriptLoader_more_examples.

Section BrowserScriptLoader_examples.
Import BrowserScriptLoader MoreSamples.

(** The script fails and, oddly, loads afterwards: only the failure is
    passed on. *)
Lemma browser_first_event_decides_once_witness :
  head empty_page = Some []
  /\ exists doc',
       (load "a.js" empty_page).2 = Returned doc'
       /\ (dispatchEvents (load "a.js" empty_page).1
             [("progress", "p"); ("error", "e1"); ("load", "e2"); ("error", "e3")] doc').1
          = first_outcome [("progress", "p"); ("error", "e1"); ("load", "e2"); ("error", "e3")]
       /\ (first_outcome [("progress", "p"); ("error", "e1"); ("load", "e2"); ("error", "e3")]
           <> [] ->
           listeners_of (load "a.js" empty_page).1
             (dispatchEvents (load "a.js" empty_page).1
                [("progress", "p"); ("error", "e1"); ("load", "e2"); ("error", "e3")] doc').2
           = []).
Proof.
  split; [reflexivity|].
  apply (browser_first_event_decides_once "a.js" empty_page []
           [("progress", "p"); ("error", "e1"); ("load", "e2"); ("error", "e3")]).
  reflexivity.
Defined.

Example browser_events_sample :
  (dispatchEvents 0 [("progress", "p"); ("error", "e1"); ("load", "e2"); ("error", "e3")]
     (document_of (load "a.js" empty_page).2)).1
  = [EErrorback "e1"].
Proof. reflexivity. Qed.

Lemma browser_load_appends_one_script_witness :
  head empty_page = Some []
  /\ exists doc',
       (load "a.js" empty_page).2 = Returned doc'
       /\ head doc' = Some ([] ++ [(load "a.js" empty_page).1])
       /\ attributes_of (load "a.js" empty_page).1 doc' !! "src" = Some "a.js"
       /\ forall other, other <> (load "a.js" empty_page).1 ->
            elements doc' !! other = elements empty_page !! other.
Proof.
  split; [reflexivity|].
  apply (browser_load_appends_one_script "a.js" empty_page []). reflexivity.
Defined.

End BrowserScriptLoader_examples.

Section NodeScriptLoaderInit_examples.
Import NodeScriptLoaderInit MoreSamples.

Lemma failed_init_is_never_repaired_witness :
  (_init nodeRequire_without_vm constructor).2 = Some "Cannot find module 'vm'"
  /\ _initialized (inits [nodeRequire_without_vm; (fun name => inr name)] constructor) = true
  /\ _crypto (inits [nodeRequire_without_vm; (fun name => inr name)] constructor) = None.
Proof.
  split; [reflexivity|].
  apply (failed_init_is_never_repaired nodeRequire_without_vm [fun name => inr name]
           "Cannot find module 'vm'").
  reflexivity.
Defined.

(** The file system module was bound before [vm] failed, and stays. *)
Example failed_init_sample :
  inits [nodeRequire_without_vm; (fun name => inr name)] constructor
  = {| _initialized := true; _fs := Some "fs"; _vm := None; _path := None; _crypto := None |}.
Proof. reflexivity. Qed.

End NodeScriptLoaderInit_examples.
